(** * surreal.session.tmux_cluster: the tmux cluster orchestrator

    A shallow embedding of [TmuxCluster] (src/surreal/session/tmux_cluster.py)
    and the properties its specification states about it.

    - [Py]          the Python builtins the class uses (str methods, [str()],
                    [' '.join], [shlex.quote], [OrderedDict] item assignment);
    - [Prog]        the calls the class makes on [self._tmux], as a small
                    free monad: a method is a tree of backend calls that ends
                    in a value or in a raised exception;
    - [TmuxCluster] the class itself, method by method;
    - [Tmux]        the multiplexer backend, which is not part of the sources:
                    an in-memory model written from section 6 of the
                    specification, and the interpreter of [Prog] over it;
    - [Calls]       the calls and the results of the methods, written out, as
                    the statements below refer to them;
    - [Example]     a cluster and some backends to run it on;
    - [PyFacts], [Semantics]
                    lemmas on the builtins and on the interpreter.

    The sections that follow hold the properties: the stages of [launch],
    the agent fleet, script references and session names, the invariant of
    the backend, the inspection of the panes, a whole session from [launch]
    to [killall]; then the constructor and the requests for agents, how the
    fleet grows and shrinks, what [launch] does stage by stage, [killall],
    and the calls the queries make. *)

From Stdlib Require Import ZArith Ascii String List Bool Lia.
From stdpp Require Import base decidable option list strings pretty gmap fin_maps.

Local Open Scope string_scope.
Local Open Scope Z_scope.

(* ===================================================================== *)
(** ** Python values and builtins *)
(* ===================================================================== *)

Module Py.

(** The exceptions the class raises.  An [assert] without a message raises
    an [AssertionError] whose message is empty. *)
Inductive exn : Type :=
| AssertionError (msg : string)
| ValueError (msg : string)
| KeyError (key : string)
| TypeError (msg : string).

Definition result (A : Type) : Type := exn + A.
Definition Ok {A} (a : A) : result A := inr a.
Definition Err {A} (e : exn) : result A := inl e.

#[global] Instance exn_eq_dec : EqDecision exn.
Proof. solve_decision. Defined.

Definition bind_result {A B} (r : result A) (f : A -> result B) : result B :=
  match r with
  | inl e => inl e
  | inr a => f a
  end.

(** [assert cond, msg] *)
Definition assert_ (cond : bool) (msg : string) : result unit :=
  if cond then Ok tt else Err (AssertionError msg).

(** [s.startswith(p)] *)
Definition startswith (s p : string) : bool := String.prefix p s.

(** [s.endswith(p)]: [s] is [p], or the rest of [s] after its first
    character ends with [p]. *)
Fixpoint endswith (s p : string) : bool :=
  if String.eqb s p then true
  else match s with
       | EmptyString => false
       | String _ s' => endswith s' p
       end.

(** [sub in s] on strings. *)
Fixpoint str_in (sub s : string) : bool :=
  if String.prefix sub s then true
  else match s with
       | EmptyString => false
       | String _ s' => str_in sub s'
       end.

(** [sep.join(l)] *)
Fixpoint join (sep : string) (l : list string) : string :=
  match l with
  | [] => ""
  | [x] => x
  | x :: l' => x ++ sep ++ join sep l'
  end.

(** The values that occur as agent names, window names and command line
    tokens: strings and integers. *)
Inductive scalar : Type :=
| PyStr (s : string)
| PyInt (z : Z).

#[global] Instance scalar_eq_dec : EqDecision scalar.
Proof. solve_decision. Defined.

(** [str(x)] *)
Definition str (x : scalar) : string :=
  match x with
  | PyStr s => s
  | PyInt z => pretty z
  end.

(** Truth value of [x] in a condition: the empty string and [0] are false. *)
Definition truthy (x : scalar) : bool :=
  match x with
  | PyStr s => negb (String.eqb s "")
  | PyInt z => negb (z =? 0)
  end.

(** One entry of [agent_args]: [None], a command string, a list of tokens,
    or a value of another type (a tuple stands for those). *)
Inductive argspec : Type :=
| ArgNone
| ArgStr (s : string)
| ArgList (l : list scalar)
| ArgTuple (l : list scalar).

(** [s.replace(old, new)] for a one-character [old]. *)
Fixpoint replace_char (old : ascii) (new : string) (s : string) : string :=
  match s with
  | EmptyString => EmptyString
  | String c s' =>
      if Ascii.eqb c old then new ++ replace_char old new s'
      else String c (replace_char old new s')
  end.

Definition in_range (lo hi : nat) (c : ascii) : bool :=
  (Nat.leb lo (nat_of_ascii c) && Nat.leb (nat_of_ascii c) hi)%bool.

(** [shlex._find_unsafe]: the characters outside [\w@%+=:,./-] (ASCII). *)
Definition shlex_safe (c : ascii) : bool :=
  (in_range 48 57 c || in_range 65 90 c || in_range 97 122 c
   || str_in (String c EmptyString) "_@%+=:,./-")%bool.

Fixpoint all_chars (p : ascii -> bool) (s : string) : bool :=
  match s with
  | EmptyString => true
  | String c s' => (p c && all_chars p s')%bool
  end.

Definition squote : string := "'".
Definition dquote : string := String (ascii_of_nat 34) EmptyString.

(** [shlex.quote(s)] *)
Definition shlex_quote (s : string) : string :=
  if String.eqb s "" then squote ++ squote
  else if all_chars shlex_safe s then s
  else squote
       ++ replace_char "'"%char (squote ++ dquote ++ squote ++ dquote ++ squote) s
       ++ squote.

(** [OrderedDict]: the items in insertion order. *)
Definition odict (V : Type) : Type := list (string * V).

(** [d[k] = v]: a key that is present keeps its position and takes the new
    value, a new key goes to the end. *)
Fixpoint odict_set {V} (k : string) (v : V) (d : odict V) : odict V :=
  match d with
  | [] => [(k, v)]
  | (k', v') :: d' =>
      if String.eqb k' k then (k', v) :: d' else (k', v') :: odict_set k v d'
  end.

Definition odict_keys {V} (d : odict V) : list string := map fst d.

(** [{..}[k]] on a dict display. *)
Fixpoint dict_get {V} (d : list (string * V)) (k : string) : result V :=
  match d with
  | [] => Err (KeyError k)
  | (k', v) :: d' => if String.eqb k' k then Ok v else dict_get d' k
  end.

Module Notations.
Notation "'try' x <- r ; k" := (bind_result r (fun x => k))
  (at level 10, x name, r at level 100, k at level 200).
End Notations.

End Py.

(* ===================================================================== *)
(** ** Programs over the multiplexer *)
(* ===================================================================== *)

Module Prog.
Import Py.

(** A method of the class, as the sequence of calls it makes on
    [self._tmux]: each node is one call of [TmuxRunner], and the
    continuation receives what the call returns. *)
Inductive prog (A : Type) : Type :=
| Ret (a : A)
| Raise (e : exn)
| Run (session_name window_name cmd : string) (k : prog A)
| Kill (session_name : string) (window_name : option string) (k : prog A)
| ListSessionNames (k : list string -> prog A)
| ListWindowNames (session_name : string) (k : list string -> prog A)
| GetStdout (session_name window_name : string) (history : Z)
    (k : list string -> prog A)
| CheckError (session_name window_name : string) (history : Z)
    (k : option string -> prog A).

Arguments Ret {A} a.
Arguments Raise {A} e.
Arguments Run {A} session_name window_name cmd k.
Arguments Kill {A} session_name window_name k.
Arguments ListSessionNames {A} k.
Arguments ListWindowNames {A} session_name k.
Arguments GetStdout {A} session_name window_name history k.
Arguments CheckError {A} session_name window_name history k.

Fixpoint bind {A B} (m : prog A) (f : A -> prog B) : prog B :=
  match m with
  | Ret a => f a
  | Raise e => Raise e
  | Run s w c k => Run s w c (bind k f)
  | Kill s w k => Kill s w (bind k f)
  | ListSessionNames k => ListSessionNames (fun r => bind (k r) f)
  | ListWindowNames s k => ListWindowNames s (fun r => bind (k r) f)
  | GetStdout s w h k => GetStdout s w h (fun r => bind (k r) f)
  | CheckError s w h k => CheckError s w h (fun r => bind (k r) f)
  end.

(** A pure computation that may raise. *)
Definition lift {A} (r : result A) : prog A :=
  match r with
  | inl e => Raise e
  | inr a => Ret a
  end.

(** The calls of [TmuxRunner] the class uses. *)
Definition run (session_name window_name cmd : string) : prog unit :=
  Run session_name window_name cmd (Ret tt).
Definition kill (session_name : string) (window_name : option string)
  : prog unit :=
  Kill session_name window_name (Ret tt).
Definition list_session_names : prog (list string) :=
  ListSessionNames Ret.
Definition list_window_names (session_name : string) : prog (list string) :=
  ListWindowNames session_name Ret.
Definition get_stdout (session_name window_name : string) (history : Z)
  : prog (list string) :=
  GetStdout session_name window_name history Ret.
Definition check_error (session_name window_name : string) (history : Z)
  : prog (option string) :=
  CheckError session_name window_name history Ret.

Module Notations.
Notation "'do' x <- m ; k" := (bind m (fun x => k))
  (at level 10, x name, m at level 100, k at level 200).
Notation "'do' ' p <- m ; k" := (bind m (fun x => let 'p := x in k))
  (at level 10, p pattern, m at level 100, k at level 200).
Notation "'exec' m ; k" := (bind m (fun _ => k))
  (at level 10, m at level 100, k at level 200).
End Notations.
Import Notations.

(** [for x in l: body x] *)
Fixpoint for_each {X} (l : list X) (body : X -> prog unit) : prog unit :=
  match l with
  | [] => Ret tt
  | x :: l' => exec body x; for_each l' body
  end.

(** A [for] loop that updates a local variable [acc]. *)
Fixpoint for_fold {X S} (l : list X) (acc : S) (body : S -> X -> prog S)
  : prog S :=
  match l with
  | [] => Ret acc
  | x :: l' => do acc' <- body acc x; for_fold l' acc' body
  end.

(** What the backend saw: one event per call, with its arguments. *)
Inductive event : Type :=
| Erun (session_name window_name cmd : string)
| Ekill (session_name : string) (window_name : option string)
| Elist_session_names
| Elist_window_names (session_name : string)
| Eget_stdout (session_name window_name : string) (history : Z)
| Echeck_error (session_name window_name : string) (history : Z).

#[global] Instance event_eq_dec : EqDecision event.
Proof. solve_decision. Defined.

Definition is_run (e : event) : bool :=
  match e with Erun _ _ _ => true | _ => false end.

Definition is_kill (e : event) : bool :=
  match e with Ekill _ _ => true | _ => false end.

(** The create-window calls of a trace. *)
Definition runs (t : list event) : list event := List.filter is_run t.

(** The session a create-window call targets. *)
Definition run_session (e : event) : option string :=
  match e with Erun s _ _ => Some s | _ => None end.

End Prog.

(* ===================================================================== *)
(** ** The class [TmuxCluster] *)
(* ===================================================================== *)

Module TmuxCluster.
Import Py Py.Notations Prog Prog.Notations.

(** The keys of [self.config] the class reads.  [Config] and
    [BASE_SESSION_CONFIG] are not part of the sources: the record is the
    configuration after [extend], with ports as integers. *)
Record Config : Type := {
  replay_name : string;
  replay_port : Z;
  ps_name : string;
  ps_port : Z;
  tensorplex_port : Z;
  tensorplex_folder : string;
  tensorplex_tb_port : Z
}.

Definition LOGGERPLEX_SCRIPT : string := "surreal.session.run_loggerplex_server".
Definition TENSORPLEX_SCRIPT : string := "surreal.session.run_tensorplex_server".

(** The attributes [__init__] sets, apart from [self._tmux]. *)
Record t : Type := {
  config : Config;
  agent_cmd : string;
  learner_cmd : string;
  evaluator_cmd : option string;
  infras_session : string;
  agent_session : string;
  learner_session : string
}.

Definition _get_python_cmd (python_script : string) : result string :=
  if startswith python_script "python" then
    Ok python_script
  else if (negb (endswith python_script ".py") && str_in "/" python_script)%bool then
    Err (ValueError ("Ill-formed python script " ++ python_script
                     ++ " should be either pkg1.pkg2.myscript or "
                     ++ "pkg1/pkg2/myscript.py"))
  else if endswith python_script ".py" then
    Ok ("python -u " ++ python_script)
  else
    Ok ("python -u -m " ++ python_script).

Definition __init__ (cluster_name : string) (session_config : Config)
    (agent_script learner_script : string) (evaluator_script : option string)
  : result t :=
  try agent_cmd_ <- _get_python_cmd agent_script;
  try learner_cmd_ <- _get_python_cmd learner_script;
  try evaluator_cmd_ <-
    match evaluator_script with
    | None => Ok None
    | Some script => try c <- _get_python_cmd script; Ok (Some c)
    end;
  Ok {| config := session_config;
        agent_cmd := agent_cmd_;
        learner_cmd := learner_cmd_;
        evaluator_cmd := evaluator_cmd_;
        infras_session := "infras-" ++ cluster_name;
        agent_session := "agent-" ++ cluster_name;
        learner_session := "learner-" ++ cluster_name |}.

(** The body of the loop of [_get_agent_info]. *)
Definition agent_arg (cmd_args : argspec) : result string :=
  match cmd_args with
  | ArgNone => Ok ""
  | ArgStr s => Ok s
  | ArgList l => Ok (join " " (map str l))
  | ArgTuple _ =>
      Err (ValueError ("Must be a list of command line arg list "
                       ++ "OR a list of command strings."))
  end.

Fixpoint agent_args_loop (agent_args_ : list argspec) (agent_args : list string)
  : result (list string) :=
  match agent_args_ with
  | [] => Ok agent_args
  | cmd_args :: rest =>
      try cmd <- agent_arg cmd_args;
      agent_args_loop rest (agent_args ++ [cmd])
  end.

Definition _get_agent_info (agent_names : list scalar) (agent_args_ : list argspec)
  : result (list string * list string) :=
  let agent_names := map str agent_names in
  try _u <- assert_ (Nat.eqb (length agent_names)
                       (size (list_to_set agent_names : gset string)))
              "must not duplicate agent names";
  try _v <- assert_ (Nat.eqb (length agent_names) (length agent_args_)) "";
  try agent_args <- agent_args_loop agent_args_ [];
  Ok (agent_names, agent_args).

Definition _session_group (self : t) (group : string) : result string :=
  try _u <- assert_ (bool_decide (group ∈ ["agent"; "learner"; "infras"])) "";
  dict_get [("agent", agent_session self);
            ("learner", learner_session self);
            ("infras", infras_session self)] group.

Definition is_launched (self : t) (group : string) : prog bool :=
  do sess <- lift (_session_group self group);
  do names <- list_session_names;
  Ret (bool_decide (sess ∈ names)).

Definition get_running_agents (self : t) : prog (list string) :=
  list_window_names (agent_session self).

Section WithSerializer.

(** [json.dumps] on the configuration: its text depends on every key of
    the merged configuration, which the sources do not hold. *)
Variable json_dumps : Config -> string.

Definition _get_tensorplex_cmd (self : t) (script : string) : result string :=
  try script <- _get_python_cmd script;
  Ok (script ++ " " ++ shlex_quote (json_dumps (config self))).

Definition add_agents (self : t) (agent_names : list scalar)
    (agent_args : list argspec) : prog unit :=
  do info <- lift (_get_agent_info agent_names agent_args);
  let '(agent_names, agent_args) := info in
  do running <- get_running_agents self;
  exec lift (assert_
               (bool_decide ((list_to_set running : gset string)
                               ∩ list_to_set agent_names = ∅))
               "some agents already running, cannot launch duplicates.");
  for_each (zip agent_names agent_args)
    (fun '(agent_name, args) =>
       run (agent_session self) agent_name (agent_cmd self ++ " " ++ args)).

Definition launch (self : t) (agent_names : list scalar)
    (agent_args : list argspec) : prog unit :=
  (* Infrastructure session *)
  do infras_up <- is_launched self "infras";
  exec (if negb infras_up then
          exec for_each
                 [(replay_name (config self), replay_port (config self));
                  (ps_name (config self), ps_port (config self));
                  ("plex", tensorplex_port (config self))]
                 (fun '(window_name, port) =>
                    run (infras_session self)
                      ("redis-" ++ window_name)
                      ("redis-server --port " ++ pretty port
                       ++ " --protected-mode no"));
          do cmd <- lift (_get_tensorplex_cmd self LOGGERPLEX_SCRIPT);
          exec run (infras_session self) "loggerplex" cmd;
          do cmd <- lift (_get_tensorplex_cmd self TENSORPLEX_SCRIPT);
          exec run (infras_session self) "tensorplex" cmd;
          run (infras_session self) "tensorboard"
            ("tensorboard --logdir " ++ tensorplex_folder (config self)
             ++ " --port " ++ pretty (tensorplex_tb_port (config self)))
        else Ret tt);
  (* Learner session *)
  do learner_up <- is_launched self "learner";
  exec (if negb learner_up then
          exec run (learner_session self) "learner" (learner_cmd self);
          match evaluator_cmd self with
          | Some cmd => run (learner_session self) "evaluator" cmd
          | None => Ret tt
          end
        else Ret tt);
  (* Agent session *)
  do agent_up <- is_launched self "agent";
  if negb agent_up then add_agents self agent_names agent_args else Ret tt.

End WithSerializer.

Definition kill_agents (self : t) (agent_names : list scalar) : prog unit :=
  do up <- is_launched self "agent";
  exec lift (assert_ up "agents not yet launched");
  for_each agent_names
    (fun name => kill (agent_session self) (Some (str name))).

(** The generator [_iterate_all_windows], with the body of the [for] loop
    that consumes it: the windows of a session are listed when the loop
    reaches that session. *)
Definition _iterate_all_windows {S} (self : t) (acc : S)
    (body : S -> string -> string -> prog S) : prog S :=
  for_fold [agent_session self; learner_session self; infras_session self] acc
    (fun acc sess =>
       do wins <- list_window_names sess;
       for_fold wins acc (fun acc win => body acc sess win)).

(** [if x:] on an optional value. *)
Definition truthy_opt (x : option scalar) : bool :=
  match x with
  | None => false
  | Some v => truthy v
  end.

Definition get_stdout (self : t) (group : option string)
    (window : option scalar) (history : Z) : prog (odict string) :=
  do group <- lift (match group with
                    | None =>
                        try _u <- assert_ (bool_decide (window = None)) "";
                        Ok None
                    | Some g =>
                        try sess <- _session_group self g;
                        Ok (Some (PyStr sess))
                    end);
  let window := if truthy_opt window
                then option_map (fun w => PyStr (str w)) window
                else window in
  _iterate_all_windows self []
    (fun outdict sess win =>
       if (truthy_opt group && negb (bool_decide (group = Some (PyStr sess))))%bool
       then Ret outdict
       else if (truthy_opt window
                && negb (bool_decide (window = Some (PyStr win))))%bool
       then Ret outdict
       else
         do stdout <- Prog.get_stdout sess win history;
         Ret (odict_set (sess ++ ":" ++ win) (join (String (ascii_of_nat 10) "") stdout)
                outdict)).

Definition check_error (self : t) : prog (odict string) :=
  _iterate_all_windows self []
    (fun outdict sess win =>
       do err <- Prog.check_error sess win 100;
       match err with
       | Some msg =>
           if negb (String.eqb msg "")
           then Ret (odict_set (sess ++ ":" ++ win) msg outdict)
           else Ret outdict
       | None => Ret outdict
       end).

(** A call [self.check_error(group=.., window=..)].  The method is declared
    [def check_error(self)]: passing a group or a window is a [TypeError],
    raised before the body runs. *)
Definition check_error_with (self : t) (group : option string)
    (window : option scalar) : prog (odict string) :=
  match group, window with
  | None, None => check_error self
  | Some _, _ =>
      Raise (TypeError "check_error() got an unexpected keyword argument 'group'")
  | None, Some _ =>
      Raise (TypeError "check_error() got an unexpected keyword argument 'window'")
  end.

Definition killall (self : t) : prog unit :=
  exec kill (agent_session self) None;
  exec kill (learner_session self) None;
  kill (infras_session self) None.

End TmuxCluster.

(* ===================================================================== *)
(** ** The multiplexer backend *)
(* ===================================================================== *)

Module Tmux.
Import Py Prog.

(** One process slot: its name, the command it was created with, and the
    text of its pane (the lines scrolled out of view, oldest first, and the
    visible lines). *)
Record window : Type := {
  win_name : string;
  win_cmd : string;
  win_scrollback : list string;
  win_visible : list string
}.

#[global] Instance window_eq_dec : EqDecision window.
Proof. solve_decision. Defined.

(** Modelled from the spec: [TmuxRunner] (self._tmux) is not part of the
    sources.  The server is the set of live sessions, each with its windows
    in creation order (section 6: listSessionNames gives a set of names,
    listWindowNames an ordered sequence). *)
Abbreviation server := (gmap string (list window)).

Definition windows_of (st : server) (session : string) : list window :=
  default [] (st !! session).

Definition new_window (name cmd : string) : window :=
  {| win_name := name; win_cmd := cmd; win_scrollback := []; win_visible := [] |}.

(** Modelled from the spec: window names are unique within a session and
    the backend enforces it; creating a window under a name in use
    overwrites the running one (section 3), in place. *)
Fixpoint put_window (name cmd : string) (ws : list window) : list window :=
  match ws with
  | [] => [new_window name cmd]
  | w :: ws' =>
      if String.eqb (win_name w) name then new_window name cmd :: ws'
      else w :: put_window name cmd ws'
  end.

(** Modelled from the spec: createWindow(session, window, command), which
    brings the session into being when it is absent (section 4.3: a session
    is absent, or running with at least one window). *)
Definition createWindow (st : server) (session name cmd : string) : server :=
  <[session := put_window name cmd (windows_of st session)]> st.

Definition remove_window (name : string) (ws : list window) : list window :=
  List.filter (fun w => negb (String.eqb (win_name w) name)) ws.

(** Modelled from the spec: killWindow(session, window), a no-op when the
    window is absent.  A session left without windows is gone. *)
Definition killWindow (st : server) (session name : string) : server :=
  match st !! session with
  | None => st
  | Some ws =>
      if bool_decide (name ∈ map win_name ws) then
        match remove_window name ws with
        | [] => delete session st
        | ws' => <[session := ws']> st
        end
      else st
  end.

(** Modelled from the spec: killSession(session), a no-op when absent. *)
Definition killSession (st : server) (session : string) : server :=
  delete session st.

(** Modelled from the spec: listSessionNames(). *)
Definition listSessionNames (st : server) : list string :=
  elements (dom st).

(** Modelled from the spec: listWindowNames(session); an absent session has
    no windows. *)
Definition listWindowNames (st : server) (session : string) : list string :=
  map win_name (windows_of st session).

Definition find_window (st : server) (session name : string) : option window :=
  List.find (fun w => String.eqb (win_name w) name) (windows_of st session).

(** The last [n] elements of [l]. *)
Definition last_n {X} (n : nat) (l : list X) : list X :=
  drop (length l - n)%nat l.

(** Modelled from the spec: capturePane(session, window, historyLines), the
    visible lines of the pane preceded by [historyLines] lines of
    scroll-back. *)
Definition capturePane (st : server) (session name : string) (history : Z)
  : list string :=
  match find_window st session name with
  | Some w => last_n (Z.to_nat history) (win_scrollback w) ++ win_visible w
  | None => []
  end.

Section WithSignature.

(** The error signature the backend searches a captured pane for: the
    specification leaves the pattern to the backend. *)
Variable error_signature : list string -> option string.

(** Modelled from the spec: findErrorInPane(session, window,
    historyLines), the error text found in the captured lines, if any. *)
Definition findErrorInPane (st : server) (session name : string) (history : Z)
  : option string :=
  error_signature (capturePane st session name history).

(** Running a program against the backend: its outcome, the state of the
    backend afterwards, and the calls made, in order. *)
Fixpoint interp {A} (p : prog A) (st : server)
  : result A * server * list event :=
  match p with
  | Ret a => (Ok a, st, [])
  | Raise e => (Err e, st, [])
  | Run s w c k =>
      let '(r, st', t) := interp k (createWindow st s w c) in
      (r, st', Erun s w c :: t)
  | Kill s w k =>
      let st1 := match w with
                 | Some name => killWindow st s name
                 | None => killSession st s
                 end in
      let '(r, st', t) := interp k st1 in
      (r, st', Ekill s w :: t)
  | ListSessionNames k =>
      let '(r, st', t) := interp (k (listSessionNames st)) st in
      (r, st', Elist_session_names :: t)
  | ListWindowNames s k =>
      let '(r, st', t) := interp (k (listWindowNames st s)) st in
      (r, st', Elist_window_names s :: t)
  | GetStdout s w h k =>
      let '(r, st', t) := interp (k (capturePane st s w h)) st in
      (r, st', Eget_stdout s w h :: t)
  | CheckError s w h k =>
      let '(r, st', t) := interp (k (findErrorInPane st s w h)) st in
      (r, st', Echeck_error s w h :: t)
  end.

Definition outcome {A} (p : prog A) (st : server) : result A :=
  fst (fst (interp p st)).
Definition final {A} (p : prog A) (st : server) : server :=
  snd (fst (interp p st)).
Definition trace {A} (p : prog A) (st : server) : list event :=
  snd (interp p st).

End WithSignature.

(** The effect of a window kill on the windows of its session. *)
Definition kill_in (name : string) (o : option (list window))
  : option (list window) :=
  match o with
  | None => None
  | Some ws =>
      if bool_decide (name ∈ map win_name ws) then
        match remove_window name ws with
        | [] => None
        | ws' => Some ws'
        end
      else Some ws
  end.

(** The effect of one call on the windows of the session [session]. *)
Definition step_session (session : string) (o : option (list window))
    (e : event) : option (list window) :=
  match e with
  | Erun s w c =>
      if decide (s = session) then Some (put_window w c (default [] o)) else o
  | Ekill s (Some w) => if decide (s = session) then kill_in w o else o
  | Ekill s None => if decide (s = session) then None else o
  | _ => o
  end.

(** A program that only reads from the backend. *)
Fixpoint read_only {A} (p : prog A) : Prop :=
  match p with
  | Ret _ | Raise _ => True
  | Run _ _ _ _ | Kill _ _ _ => False
  | ListSessionNames k => forall r, read_only (k r)
  | ListWindowNames _ k => forall r, read_only (k r)
  | GetStdout _ _ _ k => forall r, read_only (k r)
  | CheckError _ _ _ k => forall r, read_only (k r)
  end.

(** The states the backend can be in: every live session has a window, and
    no two windows of a session share a name. *)
Definition wf (st : server) : Prop :=
  forall session ws, st !! session = Some ws ->
    ws <> [] /\ NoDup (map win_name ws).

End Tmux.


(* ===================================================================== *)
(** ** The calls a method makes, written out *)
(* ===================================================================== *)

Module Calls.
Import Py Py.Notations Prog Tmux TmuxCluster.

Definition present (st : server) (session : string) : bool :=
  bool_decide (session ∈ listSessionNames st).

Definition infra_calls (json_dumps : Config -> string) (self : t) : list event :=
  [ Erun (infras_session self) ("redis-" ++ replay_name (config self))
      ("redis-server --port " ++ pretty (replay_port (config self))
       ++ " --protected-mode no");
    Erun (infras_session self) ("redis-" ++ ps_name (config self))
      ("redis-server --port " ++ pretty (ps_port (config self))
       ++ " --protected-mode no");
    Erun (infras_session self) "redis-plex"
      ("redis-server --port " ++ pretty (tensorplex_port (config self))
       ++ " --protected-mode no");
    Erun (infras_session self) "loggerplex"
      ("python -u -m surreal.session.run_loggerplex_server "
       ++ shlex_quote (json_dumps (config self)));
    Erun (infras_session self) "tensorplex"
      ("python -u -m surreal.session.run_tensorplex_server "
       ++ shlex_quote (json_dumps (config self)));
    Erun (infras_session self) "tensorboard"
      ("tensorboard --logdir " ++ tensorplex_folder (config self)
       ++ " --port " ++ pretty (tensorplex_tb_port (config self))) ].

Definition learner_calls (self : t) : list event :=
  Erun (learner_session self) "learner" (learner_cmd self)
  :: match evaluator_cmd self with
     | Some cmd => [Erun (learner_session self) "evaluator" cmd]
     | None => []
     end.

Definition agent_calls (self : t) (names args : list string) : list event :=
  map (fun '(n, a) => Erun (agent_session self) n (agent_cmd self ++ " " ++ a))
    (zip names args).

Definition disjoint_names (running names : list string) : bool :=
  bool_decide ((list_to_set running : gset string) ∩ list_to_set names = ∅).

Definition add_agents_trace (self : t) (agent_names : list scalar)
    (agent_args : list argspec) (running : list string) : list event :=
  match _get_agent_info agent_names agent_args with
  | inl _ => []
  | inr (names, args) =>
      Elist_window_names (agent_session self)
      :: (if disjoint_names running names then agent_calls self names args else [])
  end.

Definition launch_trace (json_dumps : Config -> string) (self : t)
    (agent_names : list scalar) (agent_args : list argspec)
    (infras_up learner_up agent_up : bool) (running : list string) : list event :=
  [Elist_session_names]
  ++ (if infras_up then [] else infra_calls json_dumps self)
  ++ [Elist_session_names]
  ++ (if learner_up then [] else learner_calls self)
  ++ [Elist_session_names]
  ++ (if agent_up then [] else add_agents_trace self agent_names agent_args running).

Definition distinct_sessions (self : t) : Prop :=
  infras_session self <> learner_session self
  /\ infras_session self <> agent_session self
  /\ learner_session self <> agent_session self.

(** Calls that leave the session [s] alone. *)
Definition spares (s : string) (e : event) : Prop :=
  match e with
  | Erun s' _ _ | Ekill s' _ => s' <> s
  | _ => True
  end.

(** The window names of a session, from its entry in the server. *)
Definition names_of (o : option (list window)) : list string :=
  map win_name (default [] o).

Definition kill_calls (self : t) (names : list scalar) : list event :=
  map (fun n => Ekill (agent_session self) (Some (str n))) names.

(** The three forms of a script reference. *)
Definition starts_with_interpreter (s : string) : Prop := exists q, s = "python" ++ q.
Definition ends_with_suffix (s : string) : Prop := exists q, s = q ++ ".py".
Definition has_separator (s : string) : Prop := exists a b, s = a ++ "/" ++ b.

(** The key of a slot in the mappings of [get_stdout] and [check_error]. *)
Definition slot_key (slot : string * string) : string :=
  fst slot ++ ":" ++ snd slot.

(** Every (session, window) pair of the cluster, in the order
    [_iterate_all_windows] yields them. *)
Definition all_windows (self : t) (st : server) : list (string * string) :=
  (map (pair (agent_session self)) (listWindowNames st (agent_session self))
   ++ map (pair (learner_session self)) (listWindowNames st (learner_session self))
   ++ map (pair (infras_session self)) (listWindowNames st (infras_session self)))%list.

(** The slots a call [get_stdout(group, window)] keeps, [group] being the
    session the group tag stands for. *)
Definition selected (group : option scalar) (window : option scalar)
    (slot : string * string) : bool :=
  (negb (truthy_opt group && negb (bool_decide (group = Some (PyStr (fst slot)))))
   && negb (truthy_opt window && negb (bool_decide (window = Some (PyStr (snd slot))))))%bool.

(** [if err:] on the result of [check_error]. *)
Definition error_text (err : option string) : option string :=
  match err with
  | Some msg => if negb (String.eqb msg "") then Some msg else None
  | None => None
  end.

(** One step of a loop that fills an [OrderedDict]. *)
Definition odict_step {V} (value : string * string -> option V) (d : odict V)
    (slot : string * string) : odict V :=
  match value slot with
  | Some v => odict_set (slot_key slot) v d
  | None => d
  end.

(** The entries a loop over [slots] leaves in the mapping when no two slots
    share a key. *)
Definition entries {V} (value : string * string -> option V)
    (slots : list (string * string)) : odict V :=
  omap (fun slot => pair (slot_key slot) <$> value slot) slots.

(** [window] after [if window: window = str(window)]. *)
Definition normalize_window (window : option scalar) : option scalar :=
  if truthy_opt window then option_map (fun w => PyStr (str w)) window else window.

(** The first lines of [get_stdout]: the session the group tag stands for. *)
Definition group_session (self : t) (group : option string) (window : option scalar)
  : result (option scalar) :=
  match group with
  | None => try _u <- assert_ (bool_decide (window = None)) ""; Ok None
  | Some g => try sess <- _session_group self g; Ok (Some (PyStr sess))
  end.

Definition newline : string := String (ascii_of_nat 10) "".

(** What [get_stdout] stores for a slot, if it keeps the slot. *)
Definition stdout_value (st : server) (group window : option scalar) (history : Z)
    (slot : string * string) : option string :=
  if selected group window slot
  then Some (join newline (capturePane st (fst slot) (snd slot) history))
  else None.

(** What [check_error] stores for a slot, if anything. *)
Definition error_value (sig : list string -> option string) (st : server)
    (slot : string * string) : option string :=
  error_text (findErrorInPane sig st (fst slot) (snd slot) 100).

Definition hd_char (s : string) : option ascii :=
  match s with
  | EmptyString => None
  | String c _ => Some c
  end.

(** What the specification says of [check_error(group, window)]: the
    iteration of [get_stdout], restricted to the group and the window, keeping
    the slots whose pane shows an error. *)
Definition check_error_claimed (sig : list string -> option string) (self : t)
    (group : option string) (window : option scalar) (st : server)
  : result (odict string) :=
  match group_session self group window with
  | inl e => inl e
  | inr g =>
      Ok (entries (error_value sig st)
            (filter (fun slot => selected g (normalize_window window) slot = true)
               (all_windows self st)))
  end.

(** A script reference [_get_python_cmd] rejects. *)
Definition ill_formed (s : string) : Prop :=
  ~ starts_with_interpreter s /\ ~ ends_with_suffix s /\ has_separator s.

(** What [_get_python_cmd] raises on the script reference [s]. *)
Definition script_error (s : string) : exn :=
  ValueError ("Ill-formed python script " ++ s
              ++ " should be either pkg1.pkg2.myscript or "
              ++ "pkg1/pkg2/myscript.py").

(** The windows [add_agents] creates for the names and command texts of
    [_get_agent_info]. *)
Definition agent_windows (self : t) (names args : list string) : list window :=
  map (fun '(n, a) => new_window n (agent_cmd self ++ " " ++ a)) (zip names args).

(** A trace without a call that creates or kills. *)
Definition quiet (tr : list event) : Prop :=
  Forall (fun ev => is_run ev = false /\ is_kill ev = false) tr.

(** The calls of a loop over [_iterate_all_windows]: the windows of each
    session are listed when the loop reaches it, and [call] gives the calls
    of the body on a window. *)
Definition inspect_calls (self : t) (st : server)
    (call : string -> string -> list event) : list event :=
  concat (map (fun sess =>
                 Elist_window_names sess
                 :: concat (map (call sess) (listWindowNames st sess)))
            [agent_session self; learner_session self; infras_session self]).

End Calls.

(* ===================================================================== *)
(** ** A cluster and some backends to run it on *)
(* ===================================================================== *)

Module Example.
Import Py Prog Tmux TmuxCluster Calls.
Definition cfg : Config :=
  {| replay_name := "replay"; replay_port := 6379;
     ps_name := "ps"; ps_port := 6380;
     tensorplex_port := 6381; tensorplex_folder := "/tmp/tb";
     tensorplex_tb_port := 6006 |}.

Definition exp1 : t :=
  {| config := cfg;
     agent_cmd := "python -u -m surreal.main.agent";
     learner_cmd := "python -u learn.py";
     evaluator_cmd := None;
     infras_session := "infras-exp1";
     agent_session := "agent-exp1";
     learner_session := "learner-exp1" |}.

Definition dumps (c : Config) : string := "{}".
Definition no_error (lines : list string) : option string := None.

(** An error signature: a pane shows an error when one of its lines starts
    a Python traceback; the error text is the pane. *)
Definition traceback (lines : list string) : option string :=
  if existsb (fun line => startswith line "Traceback") lines
  then Some (join newline lines)
  else None.

(** The backend after [launch(["agent0"], [["--id", 0]])] on an empty one. *)
Definition launched : server :=
  final no_error
    (launch dumps exp1 [PyStr "agent0"] [ArgList [PyStr "--id"; PyInt 0]]) ∅.

(** Two agents named by the integers 0 and 1. *)
Definition numbered : server :=
  final no_error (add_agents exp1 [PyInt 0; PyInt 1] [ArgNone; ArgNone]) ∅.

(** An agent that runs and a learner whose pane shows a traceback. *)
Definition failing : server :=
  <["agent-exp1" :=
      [ {| win_name := "agent0"; win_cmd := "python -u -m surreal.main.agent";
           win_scrollback := []; win_visible := ["step 1"] |} ]]>
    (<["learner-exp1" :=
         [ {| win_name := "learner"; win_cmd := "python -u learn.py";
              win_scrollback := [];
              win_visible := ["Traceback (most recent call last):";
                              "ValueError: bad shape"] |} ]]> ∅).

(** The cluster of [exp1] with an evaluator. *)
Definition with_evaluator : t :=
  {| config := cfg;
     agent_cmd := "python -u -m surreal.main.agent";
     learner_cmd := "python -u learn.py";
     evaluator_cmd := Some "python -u eval.py";
     infras_session := "infras-exp1";
     agent_session := "agent-exp1";
     learner_session := "learner-exp1" |}.

End Example.

(* ===================================================================== *)
(** ** Properties of the builtins *)
(* ===================================================================== *)

Module PyFacts.
Import Py.

Lemma append_cons (c : ascii) (s t : string) :
  String c s ++ t = String c (s ++ t).
Proof. reflexivity. Qed.

Lemma append_nil (t : string) : "" ++ t = t.
Proof. reflexivity. Qed.

Lemma append_inj_l (p s t : string) : p ++ s = p ++ t -> s = t.
Proof.
  induction p as [|c p IH]; [done|].
  rewrite !append_cons. intros [= H]. by apply IH.
Qed.

(** [startswith], [endswith] and [in] are prefix, suffix and substring. *)
Lemma startswith_iff (s p : string) :
  startswith s p = true <-> exists q, s = p ++ q.
Proof.
  unfold startswith. revert s.
  induction p as [|a p IH]; intros s.
  - split; [intros _; by exists s | intros _; by destruct s].
  - destruct s as [|b s]; simpl.
    + split; [done | intros [q Hq]; by rewrite append_cons in Hq].
    + destruct (ascii_dec a b) as [->|Hne].
      * rewrite IH.
        split; intros [q Hq]; exists q; rewrite ?append_cons in *; congruence.
      * split; [done | intros [q Hq]; rewrite append_cons in Hq; congruence].
Qed.

Lemma endswith_unfold (s p : string) :
  endswith s p =
  if String.eqb s p then true
  else match s with EmptyString => false | String _ s' => endswith s' p end.
Proof. by destruct s. Qed.

Lemma str_in_unfold (sub s : string) :
  str_in sub s =
  if String.prefix sub s then true
  else match s with EmptyString => false | String _ s' => str_in sub s' end.
Proof. by destruct s. Qed.

Lemma endswith_iff (s p : string) :
  endswith s p = true <-> exists q, s = q ++ p.
Proof.
  split.
  - induction s as [|c s IH]; rewrite endswith_unfold.
    + destruct (String.eqb_spec "" p) as [<-|Hne]; [by exists "" | done].
    + destruct (String.eqb_spec (String c s) p) as [<-|Hne]; [by exists "" |].
      intros [q ->]%IH. by exists (String c q).
  - intros [q ->]. induction q as [|c q IH].
    + rewrite endswith_unfold, append_nil. by rewrite String.eqb_refl.
    + rewrite endswith_unfold, append_cons.
      by destruct (String.eqb (String c (q ++ p)) p).
Qed.

Lemma str_in_iff (sub s : string) :
  str_in sub s = true <-> exists a b, s = a ++ sub ++ b.
Proof.
  split.
  - induction s as [|c s IH]; rewrite str_in_unfold;
      destruct (String.prefix sub _) eqn:E.
    + apply (startswith_iff "" sub) in E as [q ->]. by exists "", q.
    + done.
    + apply (startswith_iff (String c s) sub) in E as [q ->]. by exists "", q.
    + intros (a & b & ->)%IH. by exists (String c a), b.
  - intros (a & b & ->). induction a as [|c a IH].
    + rewrite str_in_unfold, append_nil.
      assert (String.prefix sub (sub ++ b) = true) as ->; [|done].
      apply (startswith_iff (sub ++ b) sub). by exists b.
    + rewrite str_in_unfold, append_cons.
      by destruct (String.prefix sub (String c (a ++ sub ++ b))).
Qed.

Lemma union_absorbs_elem (x : string) (l : list string) :
  x ∈ l -> {[x]} ∪ list_to_set l = (list_to_set l : gset string).
Proof.
  intros Hin. apply subseteq_union_1_L, singleton_subseteq_l.
  by apply elem_of_list_to_set.
Qed.

(** [len(l) == len(set(l))] holds exactly when [l] has no repeats. *)
Lemma size_list_to_set_le (l : list string) :
  (size (list_to_set l : gset string) <= length l)%nat.
Proof.
  induction l as [|x l IH].
  { by rewrite list_to_set_nil, size_empty. }
  rewrite list_to_set_cons, length_cons.
  destruct (decide (x ∈ l)) as [Hin|Hnin].
  - rewrite (union_absorbs_elem x l Hin). lia.
  - rewrite size_union by (by apply disjoint_singleton_l; rewrite elem_of_list_to_set).
    rewrite size_singleton. lia.
Qed.

Lemma no_repeat_iff (l : list string) :
  Nat.eqb (length l) (size (list_to_set l : gset string)) = true <-> NoDup l.
Proof.
  rewrite Nat.eqb_eq. split.
  - induction l as [|x l IH]; [constructor|].
    rewrite list_to_set_cons, length_cons.
    intros Hlen. destruct (decide (x ∈ l)) as [Hin|Hnin].
    + rewrite (union_absorbs_elem x l Hin) in Hlen.
      pose proof (size_list_to_set_le l). lia.
    + rewrite size_union, size_singleton in Hlen
        by (by apply disjoint_singleton_l; rewrite elem_of_list_to_set).
      constructor; [done|]. apply IH. lia.
  - intros Hnd. by rewrite size_list_to_set.
Qed.

End PyFacts.

(* ===================================================================== *)
(** ** Running programs against the backend *)
(* ===================================================================== *)

Module Semantics.
Import Py Prog Prog.Notations Tmux.

Lemma elem_of_listSessionNames (st : server) (session : string) :
  session ∈ listSessionNames st <-> is_Some (st !! session).
Proof. unfold listSessionNames. by rewrite elem_of_elements, elem_of_dom. Qed.

Lemma lookup_createWindow (st : server) (s w c s' : string) :
  createWindow st s w c !! s' =
  if decide (s = s') then Some (put_window w c (windows_of st s)) else st !! s'.
Proof. unfold createWindow. apply lookup_insert. Qed.

Lemma lookup_killSession (st : server) (s s' : string) :
  killSession st s !! s' = if decide (s = s') then None else st !! s'.
Proof. unfold killSession. apply lookup_delete. Qed.

Lemma lookup_killWindow (st : server) (s w s' : string) :
  killWindow st s w !! s' =
  if decide (s = s') then kill_in w (st !! s) else st !! s'.
Proof.
  unfold killWindow, kill_in.
  destruct (st !! s) as [ws|] eqn:E.
  - destruct (bool_decide (w ∈ map win_name ws)).
    + destruct (remove_window w ws) as [|x ws'].
      * by rewrite lookup_delete.
      * by rewrite lookup_insert.
    + by destruct (decide (s = s')) as [<-|].
  - by destruct (decide (s = s')) as [<-|].
Qed.

Section WithSignature.
Context (sig : list string -> option string).

Lemma interp_eta {A} (p : prog A) (st : server) :
  interp sig p st = (outcome sig p st, final sig p st, trace sig p st).
Proof. unfold outcome, final, trace. by destruct (interp sig p st) as [[??]?]. Qed.

Lemma interp_bind {A B} (m : prog A) (f : A -> prog B) (st : server) :
  interp sig (bind m f) st =
  match interp sig m st with
  | (inr a, st', t) =>
      let '(r, st'', t') := interp sig (f a) st' in (r, st'', (t ++ t')%list)
  | (inl e, st', t) => (inl e, st', t)
  end.
Proof.
  revert st.
  induction m as [a|e|s w c k IH|s w k IH|k IH|s k IH|s w h k IH|s w h k IH];
    intros st; simpl.
  - by destruct (interp sig (f a) st) as [[??]?].
  - done.
  - rewrite IH. destruct (interp sig k _) as [[[e|a] st'] t]; [done|].
    by destruct (interp sig (f a) st') as [[??]?].
  - rewrite IH. destruct (interp sig k _) as [[[e|a] st'] t]; [done|].
    by destruct (interp sig (f a) st') as [[??]?].
  - rewrite IH. destruct (interp sig (k _) _) as [[[e|a] st'] t]; [done|].
    by destruct (interp sig (f a) st') as [[??]?].
  - rewrite IH. destruct (interp sig (k _) _) as [[[e|a] st'] t]; [done|].
    by destruct (interp sig (f a) st') as [[??]?].
  - rewrite IH. destruct (interp sig (k _) _) as [[[e|a] st'] t]; [done|].
    by destruct (interp sig (f a) st') as [[??]?].
  - rewrite IH. destruct (interp sig (k _) _) as [[[e|a] st'] t]; [done|].
    by destruct (interp sig (f a) st') as [[??]?].
Qed.

(** The windows of a session after a program are those before it, changed
    by the calls of the trace on that session. *)
Lemma lookup_final {A} (p : prog A) (st : server) (session : string) :
  final sig p st !! session
  = foldl (step_session session) (st !! session) (trace sig p st).
Proof.
  unfold final, trace. revert st.
  induction p as [a|e|s w c k IH|s w k IH|k IH|s k IH|s w h k IH|s w h k IH];
    intros st; simpl; try done.
  - specialize (IH (createWindow st s w c)).
    destruct (interp sig k _) as [[r st'] t]; simpl in *.
    rewrite IH, lookup_createWindow. unfold windows_of.
    by destruct (decide (s = session)) as [->|].
  - destruct w as [w|].
    + specialize (IH (killWindow st s w)).
      destruct (interp sig k _) as [[r st'] t]; simpl in *.
      rewrite IH, lookup_killWindow.
      by destruct (decide (s = session)) as [->|].
    + specialize (IH (killSession st s)).
      destruct (interp sig k _) as [[r st'] t]; simpl in *.
      rewrite IH, lookup_killSession.
      by destruct (decide (s = session)) as [->|].
  - specialize (IH (listSessionNames st) st).
    by destruct (interp sig (k _) _) as [[r st'] t].
  - specialize (IH (listWindowNames st s) st).
    by destruct (interp sig (k _) _) as [[r st'] t].
  - specialize (IH (capturePane st s w h) st).
    by destruct (interp sig (k _) _) as [[r st'] t].
  - specialize (IH (findErrorInPane sig st s w h) st).
    by destruct (interp sig (k _) _) as [[r st'] t].
Qed.

Lemma read_only_bind {A B} (m : prog A) (f : A -> prog B) :
  read_only m -> (forall a, read_only (f a)) -> read_only (bind m f).
Proof.
  intros Hm Hf.
  induction m as [a|e|s w c k IH|s w k IH|k IH|s k IH|s w h k IH|s w h k IH];
    simpl in *; try done; intros r; by apply IH.
Qed.

Lemma read_only_for_fold {X S} (l : list X) (acc : S) (body : S -> X -> prog S) :
  (forall a x, read_only (body a x)) -> read_only (for_fold l acc body).
Proof.
  intros Hbody. revert acc.
  induction l as [|x l IH]; intros acc; simpl; [done|].
  apply read_only_bind; [apply Hbody | intros a; apply IH].
Qed.

(** A read-only program leaves the backend as it found it. *)
Lemma read_only_final {A} (p : prog A) (st : server) :
  read_only p -> final sig p st = st.
Proof.
  unfold final. revert st.
  induction p as [a|e|s w c k IH|s w k IH|k IH|s k IH|s w h k IH|s w h k IH];
    intros st Hro; simpl in *; try done.
  - specialize (IH (listSessionNames st) st (Hro _)).
    by destruct (interp sig (k _) _) as [[r st'] t].
  - specialize (IH (listWindowNames st s) st (Hro _)).
    by destruct (interp sig (k _) _) as [[r st'] t].
  - specialize (IH (capturePane st s w h) st (Hro _)).
    by destruct (interp sig (k _) _) as [[r st'] t].
  - specialize (IH (findErrorInPane sig st s w h) st (Hro _)).
    by destruct (interp sig (k _) _) as [[r st'] t].
Qed.

End WithSignature.

End Semantics.

(* ===================================================================== *)
(** ** The orchestrator *)
(* ===================================================================== *)

Import Py Py.Notations Prog Prog.Notations Tmux TmuxCluster Calls PyFacts Semantics.

Section Orchestrator.
Context (sig : list string -> option string) (json_dumps : Config -> string).

Lemma outcome_bind {A B} (m : prog A) (f : A -> prog B) st :
  outcome sig (bind m f) st =
  match outcome sig m st with
  | inr a => outcome sig (f a) (final sig m st)
  | inl e => inl e
  end.
Proof.
  unfold outcome, final. rewrite interp_bind.
  destruct (interp sig m st) as [[[e|a] st'] t]; [done|]; simpl.
  by destruct (interp sig (f a) st') as [[??]?].
Qed.

Lemma final_bind {A B} (m : prog A) (f : A -> prog B) st :
  final sig (bind m f) st =
  match outcome sig m st with
  | inr a => final sig (f a) (final sig m st)
  | inl e => final sig m st
  end.
Proof.
  unfold outcome, final. rewrite interp_bind.
  destruct (interp sig m st) as [[[e|a] st'] t]; [done|]; simpl.
  by destruct (interp sig (f a) st') as [[??]?].
Qed.

Lemma trace_bind {A B} (m : prog A) (f : A -> prog B) st :
  trace sig (bind m f) st =
  match outcome sig m st with
  | inr a => (trace sig m st ++ trace sig (f a) (final sig m st))%list
  | inl e => trace sig m st
  end.
Proof.
  unfold outcome, final, trace. rewrite interp_bind.
  destruct (interp sig m st) as [[[e|a] st'] t]; [done|]; simpl.
  by destruct (interp sig (f a) st') as [[??]?].
Qed.

Lemma session_group_agent self : _session_group self "agent" = Ok (agent_session self).
Proof. reflexivity. Qed.
Lemma session_group_learner self : _session_group self "learner" = Ok (learner_session self).
Proof. reflexivity. Qed.
Lemma session_group_infras self : _session_group self "infras" = Ok (infras_session self).
Proof. reflexivity. Qed.

Lemma interp_is_launched self group sess st :
  _session_group self group = Ok sess ->
  interp sig (is_launched self group) st
  = (Ok (present st sess), st, [Elist_session_names]).
Proof. intros H. unfold is_launched. by rewrite H. Qed.

Lemma interp_for_each_run {X} (l : list X) (f : X -> event) (body : X -> prog unit) st :
  (forall x st, exists st', interp sig (body x) st = (Ok tt, st', [f x])) ->
  exists st', interp sig (for_each l body) st = (Ok tt, st', map f l).
Proof.
  intros Hbody. revert st. induction l as [|x l IH]; intros st; simpl.
  - by exists st.
  - rewrite interp_bind. destruct (Hbody x st) as [st1 ->].
    destruct (IH st1) as [st2 ->]. by exists st2.
Qed.

Lemma interp_add_agents self names args st :
  outcome sig (add_agents self names args) st
  = match _get_agent_info names args with
    | inl e => inl e
    | inr (ns, _) =>
        if disjoint_names (listWindowNames st (agent_session self)) ns then Ok tt
        else Err (AssertionError "some agents already running, cannot launch duplicates.")
    end
  /\ trace sig (add_agents self names args) st
     = add_agents_trace self names args (listWindowNames st (agent_session self)).
Proof.
  unfold outcome, trace, add_agents, add_agents_trace.
  destruct (_get_agent_info names args) as [e|[ns argl]]; simpl; [done|].
  fold (disjoint_names (listWindowNames st (agent_session self)) ns).
  destruct (disjoint_names _ ns); simpl; [|done].
  edestruct (interp_for_each_run (zip ns argl)
               (fun '(n, a) => Erun (agent_session self) n (agent_cmd self ++ " " ++ a))
               (fun '(agent_name, args0) => run (agent_session self) agent_name (agent_cmd self ++ " " ++ args0)) st) as [st' ->].
  { intros [n a] st0. eexists. reflexivity. }
  done.
Qed.

Lemma present_iff st s : present st s = true <-> is_Some (st !! s).
Proof. unfold present. by rewrite bool_decide_eq_true, elem_of_listSessionNames. Qed.

Lemma present_createWindow st s w c s' :
  present (createWindow st s w c) s' = if decide (s = s') then true else present st s'.
Proof.
  apply eq_true_iff_eq. rewrite present_iff, lookup_createWindow.
  destruct (decide (s = s')); [by split | by rewrite present_iff].
Qed.

Lemma listWindowNames_createWindow_ne st s w c s' :
  s <> s' -> listWindowNames (createWindow st s w c) s' = listWindowNames st s'.
Proof.
  intros Hne. unfold listWindowNames, windows_of.
  by rewrite lookup_createWindow, decide_False.
Qed.


Lemma interp_is_launched_infras self st :
  interp sig (is_launched self "infras") st
  = (inr (present st (infras_session self)), st, [Elist_session_names]).
Proof. reflexivity. Qed.
Lemma interp_is_launched_learner self st :
  interp sig (is_launched self "learner") st
  = (inr (present st (learner_session self)), st, [Elist_session_names]).
Proof. reflexivity. Qed.
Lemma interp_is_launched_agent self st :
  interp sig (is_launched self "agent") st
  = (inr (present st (agent_session self)), st, [Elist_session_names]).
Proof. reflexivity. Qed.

Lemma interp_bind_ok {A B} (m : prog A) (f : A -> prog B) st a st' t :
  interp sig m st = (inr a, st', t) ->
  interp sig (bind m f) st
  = (outcome sig (f a) st', final sig (f a) st', (t ++ trace sig (f a) st')%list).
Proof.
  intros H. rewrite interp_bind, H. unfold outcome, final, trace.
  by destruct (interp sig (f a) st') as [[??]?].
Qed.


Lemma present_ext st st' s : st' !! s = st !! s -> present st' s = present st s.
Proof.
  intros H. apply eq_true_iff_eq. by rewrite !present_iff, H.
Qed.

Lemma listWindowNames_ext st st' s :
  st' !! s = st !! s -> listWindowNames st' s = listWindowNames st s.
Proof. intros H. unfold listWindowNames, windows_of. by rewrite H. Qed.

Lemma foldl_step_spares s o t :
  Forall (spares s) t -> foldl (step_session s) o t = o.
Proof.
  intros H. revert o. induction H as [|e t He _ IH]; intros o; simpl; [done|].
  rewrite IH. destruct e as [s' w c|s' [w|]| | | |]; simpl in *; try done;
    by rewrite decide_False.
Qed.

Lemma final_spares {A} (p : prog A) st s :
  Forall (spares s) (trace sig p st) -> final sig p st !! s = st !! s.
Proof. intros H. by rewrite lookup_final, foldl_step_spares. Qed.

Lemma interp_infra_stage self st (up : bool) :
  exists st',
    interp sig
      (if negb up then
         exec for_each
                [(replay_name (config self), replay_port (config self));
                 (ps_name (config self), ps_port (config self));
                 ("plex", tensorplex_port (config self))]
                (fun '(window_name, port) =>
                   run (infras_session self)
                     ("redis-" ++ window_name)
                     ("redis-server --port " ++ pretty port
                      ++ " --protected-mode no"));
         do cmd <- lift (_get_tensorplex_cmd json_dumps self LOGGERPLEX_SCRIPT);
         exec run (infras_session self) "loggerplex" cmd;
         do cmd <- lift (_get_tensorplex_cmd json_dumps self TENSORPLEX_SCRIPT);
         exec run (infras_session self) "tensorplex" cmd;
         run (infras_session self) "tensorboard"
           ("tensorboard --logdir " ++ tensorplex_folder (config self)
            ++ " --port " ++ pretty (tensorplex_tb_port (config self)))
       else Ret tt) st
    = (inr tt, st', if up then [] else infra_calls json_dumps self)
    /\ forall s, s <> infras_session self -> st' !! s = st !! s.
Proof.
  destruct up; simpl negb; cbv iota.
  - by exists st.
  - eexists. split; [reflexivity|].
    intros s Hs. by rewrite !lookup_createWindow, !decide_False.
Qed.

Lemma interp_learner_stage self st (up : bool) :
  exists st',
    interp sig
      (if negb up then
         exec run (learner_session self) "learner" (learner_cmd self);
         match evaluator_cmd self with
         | Some cmd => run (learner_session self) "evaluator" cmd
         | None => Ret tt
         end
       else Ret tt) st
    = (inr tt, st', if up then [] else learner_calls self)
    /\ forall s, s <> learner_session self -> st' !! s = st !! s.
Proof.
  destruct up; simpl negb; cbv iota.
  - by exists st.
  - unfold learner_calls. destruct (evaluator_cmd self) as [cmd|]; eexists;
      (split; [reflexivity|]); intros s Hs;
      by rewrite !lookup_createWindow, !decide_False.
Qed.

Lemma trace_launch self names args st :
  distinct_sessions self ->
  trace sig (launch json_dumps self names args) st
  = launch_trace json_dumps self names args
      (present st (infras_session self)) (present st (learner_session self))
      (present st (agent_session self)) (listWindowNames st (agent_session self)).
Proof.
  intros (Hil & Hia & Hla).
  unfold launch, launch_trace, trace at 1.
  erewrite interp_bind_ok by apply interp_is_launched_infras.
  cbn [snd]. f_equal.
  destruct (interp_infra_stage self st (present st (infras_session self)))
    as (st1 & E1 & F1).
  unfold trace at 1. erewrite interp_bind_ok by exact E1.
  cbn [snd]. f_equal.
  unfold trace at 1. erewrite interp_bind_ok by apply interp_is_launched_learner.
  cbn [snd]. f_equal.
  destruct (interp_learner_stage self st1 (present st1 (learner_session self)))
    as (st2 & E2 & F2).
  unfold trace at 1. erewrite interp_bind_ok by exact E2.
  cbn [snd]. rewrite (present_ext st st1) by (apply F1; congruence). f_equal.
  unfold trace at 1. erewrite interp_bind_ok by apply interp_is_launched_agent.
  cbn [snd]. f_equal.
  assert (st2 !! agent_session self = st !! agent_session self) as F
    by (rewrite F2, F1; congruence).
  rewrite (present_ext st st2) by done.
  destruct (present st (agent_session self)); simpl; [done|].
  rewrite <- (listWindowNames_ext st st2) by done.
  apply interp_add_agents.
Qed.

Lemma init_inv name cfg a l e self :
  __init__ name cfg a l e = Ok self ->
  config self = cfg
  /\ infras_session self = "infras-" ++ name
  /\ agent_session self = "agent-" ++ name
  /\ learner_session self = "learner-" ++ name
  /\ _get_python_cmd a = Ok (agent_cmd self)
  /\ _get_python_cmd l = Ok (learner_cmd self).
Proof.
  unfold __init__.
  destruct (_get_python_cmd a) as [?|ac]; [done|].
  destruct (_get_python_cmd l) as [?|lc]; [done|]. simpl.
  destruct e as [ev|]; simpl.
  - destruct (_get_python_cmd ev) as [?|ec]; [done|]. simpl.
    by intros [= <-].
  - by intros [= <-].
Qed.

Lemma session_ids_distinct (name : string) :
  "infras-" ++ name <> "learner-" ++ name
  /\ "infras-" ++ name <> "agent-" ++ name
  /\ "learner-" ++ name <> "agent-" ++ name.
Proof. repeat split; rewrite !append_cons; discriminate. Qed.

Lemma init_distinct name cfg a l e self :
  __init__ name cfg a l e = Ok self -> distinct_sessions self.
Proof.
  intros (_ & Hi & Ha & Hl & _)%init_inv. unfold distinct_sessions.
  rewrite Hi, Ha, Hl. apply session_ids_distinct.
Qed.

Lemma Forall_spares_infra s self :
  s <> infras_session self -> Forall (spares s) (infra_calls json_dumps self).
Proof. intros H. repeat constructor; simpl; congruence. Qed.

Lemma Forall_spares_learner s self :
  s <> learner_session self -> Forall (spares s) (learner_calls self).
Proof.
  intros H. unfold learner_calls.
  destruct (evaluator_cmd self); repeat constructor; simpl; congruence.
Qed.

Lemma Forall_spares_agent_calls s self ns argl :
  s <> agent_session self -> Forall (spares s) (agent_calls self ns argl).
Proof.
  intros H. unfold agent_calls. apply Forall_map, Forall_forall.
  intros [n a] _. simpl. congruence.
Qed.

Lemma Forall_spares_add_agents s self names args running :
  s <> agent_session self ->
  Forall (spares s) (add_agents_trace self names args running).
Proof.
  intros H. unfold add_agents_trace.
  destruct (_get_agent_info names args) as [?|[ns argl]]; [constructor|].
  constructor; [done|].
  destruct (disjoint_names running ns); [|constructor].
  by apply Forall_spares_agent_calls.
Qed.

Lemma spares_run_session s e : spares s e -> run_session e <> Some s.
Proof. destruct e; simpl; congruence. Qed.

Lemma present_false_iff st s : present st s = false <-> st !! s = None.
Proof.
  rewrite <- not_true_iff_false, present_iff, <- eq_None_not_Some. done.
Qed.

(** C1.  When [launch] finds the infrastructure session absent, the first
    calls it issues after listing the sessions are, in this order: the
    redis window of the replay store, of the parameter store and of the
    plex broker (each [redis-server --port <port> --protected-mode no]),
    the loggerplex server and the tensorplex server (each the script
    followed by the shell-quoted JSON of the configuration, its only
    argument), and tensorboard on the metrics folder and [tb_port]; no
    later call creates a window in that session.  When the session exists,
    [launch] creates no window in it at all. *)
Theorem launch_infra_calls_in_order name cfg a l e self names args st :
  __init__ name cfg a l e = Ok self ->
  (st !! ("infras-" ++ name) = None ->
   exists rest,
     trace sig (launch json_dumps self names args) st
     = (Elist_session_names
        :: [ Erun ("infras-" ++ name) ("redis-" ++ replay_name cfg)
               ("redis-server --port " ++ pretty (replay_port cfg)
                ++ " --protected-mode no");
             Erun ("infras-" ++ name) ("redis-" ++ ps_name cfg)
               ("redis-server --port " ++ pretty (ps_port cfg)
                ++ " --protected-mode no");
             Erun ("infras-" ++ name) "redis-plex"
               ("redis-server --port " ++ pretty (tensorplex_port cfg)
                ++ " --protected-mode no");
             Erun ("infras-" ++ name) "loggerplex"
               ("python -u -m surreal.session.run_loggerplex_server "
                ++ shlex_quote (json_dumps cfg));
             Erun ("infras-" ++ name) "tensorplex"
               ("python -u -m surreal.session.run_tensorplex_server "
                ++ shlex_quote (json_dumps cfg));
             Erun ("infras-" ++ name) "tensorboard"
               ("tensorboard --logdir " ++ tensorplex_folder cfg
                ++ " --port " ++ pretty (tensorplex_tb_port cfg)) ]
        ++ rest)%list
     /\ Forall (fun ev => run_session ev <> Some ("infras-" ++ name)) rest)
  /\ (is_Some (st !! ("infras-" ++ name)) ->
      Forall (fun ev => run_session ev <> Some ("infras-" ++ name))
        (trace sig (launch json_dumps self names args) st)).
Proof.
  intros Hinit. pose proof (init_distinct _ _ _ _ _ _ Hinit) as Hd.
  pose proof Hd as (Hil & Hia & Hla).
  destruct (init_inv _ _ _ _ _ _ Hinit) as (Hc & Hi & _).
  rewrite trace_launch by done. rewrite <- Hi. unfold launch_trace.
  split.
  - intros Habs%present_false_iff. rewrite Habs.
    eexists. split.
    + unfold infra_calls. rewrite Hc. simpl. reflexivity.
    + apply Forall_impl with (P := spares (infras_session self));
        [|intros ev; apply spares_run_session].
      constructor; [done|]. apply Forall_app; split.
      { destruct (present st (learner_session self)); [constructor|].
        by apply Forall_spares_learner. }
      constructor; [done|].
      destruct (present st (agent_session self)); [constructor|].
      by apply Forall_spares_add_agents.
  - intros Hpres%present_iff. rewrite Hpres.
    apply Forall_impl with (P := spares (infras_session self));
      [|intros ev; apply spares_run_session].
    simpl. constructor; [done|]. constructor; [done|]. apply Forall_app; split.
    { destruct (present st (learner_session self)); [constructor|].
      by apply Forall_spares_learner. }
    constructor; [done|].
    destruct (present st (agent_session self)); [constructor|].
    by apply Forall_spares_add_agents.
Qed.

Lemma disjoint_names_nil ns : disjoint_names [] ns = true.
Proof.
  unfold disjoint_names. apply bool_decide_eq_true.
  rewrite list_to_set_nil. apply intersection_empty_l_L.
Qed.

Lemma foldl_step_agent_calls self o ns argl :
  agent_calls self ns argl <> [] ->
  is_Some (foldl (step_session (agent_session self)) o (agent_calls self ns argl)).
Proof.
  unfold agent_calls. generalize (zip ns argl) as l. clear ns argl.
  intros l. revert o. induction l as [|[n a] l IH]; intros o Hne; [done|].
  simpl. rewrite decide_True by done.
  destruct l as [|p l]; [by eexists|]. by apply IH.
Qed.

Lemma runs_app t1 t2 : runs (t1 ++ t2) = (runs t1 ++ runs t2)%list.
Proof. apply List.filter_app. Qed.

Lemma runs_agent_calls self ns argl :
  runs (agent_calls self ns argl) = agent_calls self ns argl.
Proof.
  unfold agent_calls. induction (zip ns argl) as [|[n a] l IH]; [done|].
  simpl. by rewrite IH.
Qed.

Lemma foldl_step_spares_l s o t1 t2 :
  Forall (spares s) t1 ->
  foldl (step_session s) o (t1 ++ t2) = foldl (step_session s) o t2.
Proof. intros H. by rewrite foldl_app, (foldl_step_spares s o t1). Qed.

Lemma foldl_step_spares_r s o t1 t2 :
  Forall (spares s) t2 ->
  foldl (step_session s) o (t1 ++ t2) = foldl (step_session s) o t1.
Proof. intros H. by rewrite foldl_app, (foldl_step_spares _ _ t2). Qed.

Lemma Forall_spares_listing s : Forall (spares s) [Elist_session_names].
Proof. by repeat constructor. Qed.

Lemma Forall_spares_if s (b : bool) t :
  Forall (spares s) t -> Forall (spares s) (if b then [] else t).
Proof. intros H. destruct b; [constructor | done]. Qed.

Ltac spares :=
  repeat first
    [ apply Forall_app; split
    | apply Forall_spares_listing
    | apply Forall_spares_if
    | apply Forall_spares_infra; congruence
    | apply Forall_spares_learner; congruence
    | apply Forall_spares_add_agents; congruence
    | apply Forall_nil_2 ].

(** The windows of each of the three sessions after [launch]. *)
Lemma foldl_launch_trace_infras self names args iu lu au running o :
  distinct_sessions self ->
  foldl (step_session (infras_session self)) o
    (launch_trace json_dumps self names args iu lu au running)
  = foldl (step_session (infras_session self)) o
      (if iu then [] else infra_calls json_dumps self).
Proof.
  intros (Hil & Hia & Hla). unfold launch_trace.
  rewrite foldl_step_spares_l by spares.
  by rewrite foldl_step_spares_r by spares.
Qed.

Lemma foldl_launch_trace_learner self names args iu lu au running o :
  distinct_sessions self ->
  foldl (step_session (learner_session self)) o
    (launch_trace json_dumps self names args iu lu au running)
  = foldl (step_session (learner_session self)) o
      (if lu then [] else learner_calls self).
Proof.
  intros (Hil & Hia & Hla). unfold launch_trace.
  do 3 rewrite foldl_step_spares_l by spares.
  by rewrite foldl_step_spares_r by spares.
Qed.

Lemma foldl_launch_trace_agent self names args iu lu au running o :
  distinct_sessions self ->
  foldl (step_session (agent_session self)) o
    (launch_trace json_dumps self names args iu lu au running)
  = foldl (step_session (agent_session self)) o
      (if au then [] else add_agents_trace self names args running).
Proof.
  intros (Hil & Hia & Hla). unfold launch_trace.
  by do 5 rewrite foldl_step_spares_l by spares.
Qed.

Lemma foldl_launch_trace_other self names args iu lu au running o s :
  s <> infras_session self -> s <> learner_session self ->
  s <> agent_session self ->
  foldl (step_session s) o
    (launch_trace json_dumps self names args iu lu au running) = o.
Proof.
  intros Hi Hl Ha. apply foldl_step_spares. unfold launch_trace. spares.
Qed.

Lemma foldl_infra_calls_is_Some self o :
  is_Some (foldl (step_session (infras_session self)) o (infra_calls json_dumps self)).
Proof. unfold infra_calls. simpl. rewrite !decide_True by done. by eexists. Qed.

Lemma foldl_learner_calls_is_Some self o :
  is_Some (foldl (step_session (learner_session self)) o (learner_calls self)).
Proof.
  unfold learner_calls. destruct (evaluator_cmd self); simpl;
    rewrite !decide_True by done; by eexists.
Qed.

Lemma runs_infra_calls self : runs (infra_calls json_dumps self) = infra_calls json_dumps self.
Proof. reflexivity. Qed.

Lemma runs_learner_calls self : runs (learner_calls self) = learner_calls self.
Proof. unfold learner_calls. by destruct (evaluator_cmd self). Qed.

Lemma runs_launch_trace self names args iu lu au running :
  runs (launch_trace json_dumps self names args iu lu au running)
  = ((if iu then [] else infra_calls json_dumps self)
     ++ (if lu then [] else learner_calls self)
     ++ (if au then [] else
           match _get_agent_info names args with
           | inl _ => []
           | inr (ns, argl) =>
               if disjoint_names running ns then agent_calls self ns argl else []
           end))%list.
Proof.
  unfold launch_trace. rewrite !runs_app. simpl (runs [_]). simpl app.
  f_equal; [destruct iu; [done | apply runs_infra_calls]|].
  f_equal; [destruct lu; [done | apply runs_learner_calls]|].
  destruct au; [done|]. unfold add_agents_trace.
  destruct (_get_agent_info names args) as [?|[ns argl]]; [done|].
  cbn. destruct (disjoint_names running ns); [apply runs_agent_calls | done].
Qed.

(** C2.  [launch] is idempotent: run again on the backend the first run
    left, with the same arguments, it creates no window.  The three checks
    are independent: every window a run creates goes to a session that was
    absent before it, a session that was there keeps its windows, and the
    infrastructure and learner sessions are there afterwards. *)
Theorem launch_idempotent name cfg a l e self names args st :
  __init__ name cfg a l e = Ok self ->
  runs (trace sig (launch json_dumps self names args)
          (final sig (launch json_dumps self names args) st)) = []
  /\ (forall ev, ev ∈ runs (trace sig (launch json_dumps self names args) st) ->
       exists s, run_session ev = Some s /\ st !! s = None)
  /\ (forall s ws, st !! s = Some ws ->
       final sig (launch json_dumps self names args) st !! s = Some ws)
  /\ is_Some (final sig (launch json_dumps self names args) st
               !! infras_session self)
  /\ is_Some (final sig (launch json_dumps self names args) st
               !! learner_session self).
Proof.
  intros Hinit. pose proof (init_distinct _ _ _ _ _ _ Hinit) as Hd.
  pose proof Hd as (Hil & Hia & Hla).
  set (st' := final sig (launch json_dumps self names args) st).
  assert (Hi' : is_Some (st' !! infras_session self)).
  { unfold st'. rewrite lookup_final, trace_launch, foldl_launch_trace_infras by done.
    destruct (present st (infras_session self)) eqn:E.
    - by apply present_iff.
    - apply foldl_infra_calls_is_Some. }
  assert (Hl' : is_Some (st' !! learner_session self)).
  { unfold st'. rewrite lookup_final, trace_launch, foldl_launch_trace_learner by done.
    destruct (present st (learner_session self)) eqn:E.
    - by apply present_iff.
    - apply foldl_learner_calls_is_Some. }
  assert (Ha' : st' !! agent_session self
                = foldl (step_session (agent_session self)) (st !! agent_session self)
                    (if present st (agent_session self) then []
                     else add_agents_trace self names args
                            (listWindowNames st (agent_session self)))).
  { unfold st'. by rewrite lookup_final, trace_launch, foldl_launch_trace_agent. }
  split; [|split; [|split; [|done]]].
  - rewrite trace_launch, runs_launch_trace by done.
    apply present_iff in Hi' as ->. apply present_iff in Hl' as ->. simpl.
    destruct (present st' (agent_session self)) eqn:Ea'; [done|].
    apply present_false_iff in Ea'.
    unfold listWindowNames at 1, windows_of. rewrite Ea'. simpl.
    rewrite Ea' in Ha'.
    destruct (_get_agent_info names args) as [?|[ns argl]] eqn:Einfo; [done|].
    rewrite disjoint_names_nil.
    destruct (present st (agent_session self)) eqn:Ea.
    + apply present_iff in Ea as [ws Hws]. simpl in Ha'. congruence.
    + apply present_false_iff in Ea. unfold add_agents_trace in Ha'.
      rewrite Einfo in Ha'. unfold listWindowNames, windows_of in Ha'.
      rewrite Ea in Ha'. simpl in Ha'. rewrite disjoint_names_nil in Ha'.
      destruct (agent_calls self ns argl) as [|ev t] eqn:Ec; [done|].
      exfalso. rewrite <- Ec in Ha'.
      destruct (foldl_step_agent_calls self None ns argl) as [ws Hws];
        [by rewrite Ec|]. congruence.
  - rewrite trace_launch, runs_launch_trace by done.
    intros ev Hev. rewrite !elem_of_app in Hev. destruct Hev as [Hev|[Hev|Hev]].
    + destruct (present st (infras_session self)) eqn:E;
        [by apply elem_of_nil in Hev|].
      apply present_false_iff in E. exists (infras_session self). split; [|done].
      unfold infra_calls in Hev. set_unfold. by destruct Hev as [->|[->|[->|[->|[->|[->|[]]]]]]].
    + destruct (present st (learner_session self)) eqn:E;
        [by apply elem_of_nil in Hev|].
      apply present_false_iff in E. exists (learner_session self). split; [|done].
      unfold learner_calls in Hev. destruct (evaluator_cmd self);
        set_unfold; by destruct Hev as [->|[->|[]]] || destruct Hev as [->|[]].
    + destruct (present st (agent_session self)) eqn:E;
        [by apply elem_of_nil in Hev|].
      apply present_false_iff in E. exists (agent_session self). split; [|done].
      destruct (_get_agent_info names args) as [?|[ns argl]];
        [by apply elem_of_nil in Hev|].
      destruct (disjoint_names _ ns); [|by apply elem_of_nil in Hev].
      unfold agent_calls in Hev. apply list_elem_of_fmap in Hev as ([n x] & -> & _).
      done.
  - intros s ws Hs. fold st'. unfold st'.
    rewrite lookup_final, trace_launch by done. rewrite <- Hs.
    apply foldl_step_spares. unfold launch_trace.
    assert (Hp : present st s = true) by (apply present_iff; by rewrite Hs).
    repeat first
      [ apply Forall_app; split
      | apply Forall_spares_listing ].
    + destruct (decide (s = infras_session self)) as [->|Hne];
        [rewrite Hp; constructor | spares].
    + destruct (decide (s = learner_session self)) as [->|Hne];
        [rewrite Hp; constructor | spares].
    + destruct (decide (s = agent_session self)) as [->|Hne];
        [rewrite Hp; constructor | spares].
Qed.
End Orchestrator.

(* ===================================================================== *)
(** ** The agent fleet *)
(* ===================================================================== *)

Section Fleet.
Context (sig : list string -> option string).

Lemma get_agent_info_names names args ns argl :
  _get_agent_info names args = Ok (ns, argl) -> ns = map str names.
Proof.
  unfold _get_agent_info.
  destruct (assert_ (Nat.eqb _ _) _) as [?|[]]; [done|]. simpl.
  destruct (assert_ (Nat.eqb _ _) _) as [?|[]]; [done|]. simpl.
  destruct (agent_args_loop args []) as [?|al]; [done|]. simpl.
  by intros [= <- _].
Qed.

Lemma get_agent_info_repeat names args :
  ~ NoDup (map str names) ->
  _get_agent_info names args = Err (AssertionError "must not duplicate agent names").
Proof.
  intros Hdup. unfold _get_agent_info.
  destruct (Nat.eqb _ _) eqn:E; [|done].
  by apply no_repeat_iff in E.
Qed.

Lemma disjoint_names_false running ns n :
  n ∈ ns -> n ∈ running -> disjoint_names running ns = false.
Proof.
  intros Hn Hr. unfold disjoint_names. apply bool_decide_eq_false.
  intros Hempty.
  assert (n ∈ (list_to_set running ∩ list_to_set ns : gset string)) as Hin
    by (apply elem_of_intersection; by rewrite !elem_of_list_to_set).
  rewrite Hempty in Hin. by apply not_elem_of_empty in Hin.
Qed.

Lemma interp_add_agents_full self names args st :
  interp sig (add_agents self names args) st
  = match _get_agent_info names args with
    | inl e => (inl e, st, [])
    | inr (ns, argl) =>
        if disjoint_names (listWindowNames st (agent_session self)) ns
        then (Ok tt,
              final sig (add_agents self names args) st,
              Elist_window_names (agent_session self) :: agent_calls self ns argl)
        else (Err (AssertionError
                     "some agents already running, cannot launch duplicates."),
              st, [Elist_window_names (agent_session self)])
    end.
Proof.
  rewrite interp_eta.
  destruct (interp_add_agents sig self names args st) as [-> ->].
  unfold add_agents_trace, final, add_agents.
  destruct (_get_agent_info names args) as [e|[ns argl]]; simpl; [done|].
  fold (disjoint_names (listWindowNames st (agent_session self)) ns).
  by destruct (disjoint_names _ ns).
Qed.

(** C3.  A rejected [add_agents] is atomic.  Names with a repeat fail with
    the assertion 'must not duplicate agent names' before any call on the
    backend; a request that passes [_get_agent_info] and names a window of
    the agent session fails with 'some agents already running, cannot
    launch duplicates.' after listing the windows only; and whenever
    [add_agents] raises, the backend is as it was and no window was
    created. *)
Theorem add_agents_rejected_atomic self names args st :
  (~ NoDup (map str names) ->
   interp sig (add_agents self names args) st
   = (Err (AssertionError "must not duplicate agent names"), st, []))
  /\ (forall ns argl n,
        _get_agent_info names args = Ok (ns, argl) ->
        n ∈ ns -> n ∈ listWindowNames st (agent_session self) ->
        interp sig (add_agents self names args) st
        = (Err (AssertionError
                  "some agents already running, cannot launch duplicates."),
           st, [Elist_window_names (agent_session self)]))
  /\ (forall e,
        outcome sig (add_agents self names args) st = Err e ->
        final sig (add_agents self names args) st = st
        /\ runs (trace sig (add_agents self names args) st) = []).
Proof.
  split; [|split].
  - intros Hdup. rewrite interp_add_agents_full.
    by rewrite get_agent_info_repeat.
  - intros ns argl n Hinfo Hn Hr. unfold Ok in Hinfo.
    rewrite interp_add_agents_full, Hinfo. cbv beta iota.
    by rewrite (disjoint_names_false _ _ n).
  - intros e. unfold outcome, final, trace. rewrite interp_add_agents_full.
    destruct (_get_agent_info names args) as [e'|[ns argl]]; [done|].
    by destruct (disjoint_names _ ns).
Qed.

Lemma names_remove_window w ws :
  map win_name (remove_window w ws)
  = filter (fun x => x <> w) (map win_name ws).
Proof.
  unfold remove_window. induction ws as [|x ws IH]; [done|]. simpl.
  rewrite filter_cons.
  destruct (String.eqb_spec (win_name x) w) as [Heq|Hne]; simpl.
  - by rewrite decide_False by (intros H; by apply H).
  - rewrite decide_True by done. simpl. by rewrite IH.
Qed.

Lemma filter_all {X} (P : X -> Prop) `{forall x, Decision (P x)} (l : list X) :
  Forall P l -> filter P l = l.
Proof.
  induction 1 as [|x l Hx _ IH]; [done|].
  by rewrite filter_cons, decide_True, IH.
Qed.

Lemma names_kill_in w o :
  names_of (kill_in w o) = filter (fun x => x <> w) (names_of o).
Proof.
  unfold names_of, kill_in. destruct o as [ws|]; [|done]. simpl.
  destruct (bool_decide (w ∈ map win_name ws)) eqn:E.
  - rewrite <- names_remove_window. by destruct (remove_window w ws).
  - apply bool_decide_eq_false in E. simpl. symmetry. apply filter_all.
    apply Forall_forall. intros x Hx ->. done.
Qed.

Lemma kill_in_absent w o : w ∉ names_of o -> kill_in w o = o.
Proof.
  unfold names_of, kill_in. destruct o as [ws|]; [|done]. simpl.
  intros H. by rewrite bool_decide_eq_false_2.
Qed.

Lemma names_foldl_kill_calls self names o :
  names_of (foldl (step_session (agent_session self)) o (kill_calls self names))
  = filter (fun w => w ∉ map str names) (names_of o).
Proof.
  revert o. induction names as [|n names IH]; intros o; simpl.
  - symmetry. apply filter_all, Forall_forall. intros x _. apply not_elem_of_nil.
  - rewrite decide_True by done. rewrite IH, names_kill_in.
    rewrite list_filter_filter. apply list_filter_iff.
    intros x. rewrite not_elem_of_cons. tauto.
Qed.

Lemma foldl_kill_calls_absent self names o :
  (forall n, n ∈ names -> str n ∉ names_of o) ->
  foldl (step_session (agent_session self)) o (kill_calls self names) = o.
Proof.
  induction names as [|n names IH]; intros H; simpl; [done|].
  rewrite decide_True by done.
  rewrite kill_in_absent by (apply H; left).
  apply IH. intros m Hm. apply H. by right.
Qed.

Lemma Forall_spares_kill_calls self names s :
  s <> agent_session self -> Forall (spares s) (kill_calls self names).
Proof.
  intros H. unfold kill_calls. apply Forall_map, Forall_forall.
  intros n _. simpl. congruence.
Qed.

Lemma interp_kill_agents self names st :
  interp sig (kill_agents self names) st
  = if present st (agent_session self)
    then (Ok tt, final sig (kill_agents self names) st,
          Elist_session_names :: kill_calls self names)
    else (Err (AssertionError "agents not yet launched"), st,
          [Elist_session_names]).
Proof.
  rewrite interp_eta. unfold outcome, final, trace, kill_agents.
  erewrite interp_bind_ok by apply interp_is_launched_agent.
  destruct (present st (agent_session self)); [|done].
  simpl outcome; simpl final; simpl trace.
  unfold outcome, final, trace. simpl.
  destruct (interp_for_each_run sig names
              (fun n => Ekill (agent_session self) (Some (str n)))
              (fun name => kill (agent_session self) (Some (str name))) st)
    as [st' ->]; [|done].
  intros n st0. eexists. reflexivity.
Qed.

(** C9.  [kill_agents] fails with the assertion 'agents not yet launched'
    when the agent session does not exist.  Otherwise it issues one window
    kill per name, in order, on the agent session; the fleet afterwards is
    the fleet before without the names given, the other sessions are
    untouched, and names without a window leave the backend as it was. *)
Theorem kill_agents_spec self names st :
  (st !! agent_session self = None ->
   interp sig (kill_agents self names) st
   = (Err (AssertionError "agents not yet launched"), st, [Elist_session_names]))
  /\ (is_Some (st !! agent_session self) ->
      outcome sig (kill_agents self names) st = Ok tt
      /\ trace sig (kill_agents self names) st
         = Elist_session_names
           :: map (fun n => Ekill (agent_session self) (Some (str n))) names
      /\ listWindowNames (final sig (kill_agents self names) st) (agent_session self)
         = filter (fun w => w ∉ map str names)
             (listWindowNames st (agent_session self))
      /\ (forall s, s <> agent_session self ->
           final sig (kill_agents self names) st !! s = st !! s)
      /\ ((forall n, n ∈ names ->
             str n ∉ listWindowNames st (agent_session self)) ->
          final sig (kill_agents self names) st = st)).
Proof.
  split.
  - intros Habs%present_false_iff. by rewrite interp_kill_agents, Habs.
  - intros Hpres%present_iff.
    assert (Ht : trace sig (kill_agents self names) st
                 = Elist_session_names :: kill_calls self names).
    { unfold trace. by rewrite interp_kill_agents, Hpres. }
    split; [|split; [|split; [|split]]].
    + unfold outcome. by rewrite interp_kill_agents, Hpres.
    + exact Ht.
    + unfold listWindowNames, windows_of. rewrite lookup_final, Ht. simpl.
      apply names_foldl_kill_calls.
    + intros s Hs. apply final_spares. rewrite Ht.
      constructor; [done|]. by apply Forall_spares_kill_calls.
    + intros Hnone. apply map_eq. intros s. rewrite lookup_final, Ht. simpl.
      destruct (decide (s = agent_session self)) as [->|Hne].
      * by apply foldl_kill_calls_absent.
      * apply foldl_step_spares. by apply Forall_spares_kill_calls.
Qed.
End Fleet.

(* ===================================================================== *)
(** ** Script references and session names *)
(* ===================================================================== *)

Section Naming.

(** C5.  [_get_python_cmd], its cases tried in order: a reference that
    starts with [python] is returned unchanged; else one that ends in
    [.py] gives [python -u <reference>]; else one that holds a [/] is
    rejected with a [ValueError]; else it is a module path and gives
    [python -u -m <reference>]. *)
Theorem get_python_cmd_cases (python_script : string) :
  (starts_with_interpreter python_script ->
   _get_python_cmd python_script = Ok python_script)
  /\ (~ starts_with_interpreter python_script ->
      ends_with_suffix python_script ->
      _get_python_cmd python_script = Ok ("python -u " ++ python_script))
  /\ (~ starts_with_interpreter python_script ->
      ~ ends_with_suffix python_script ->
      has_separator python_script ->
      exists msg, _get_python_cmd python_script = Err (ValueError msg))
  /\ (~ starts_with_interpreter python_script ->
      ~ ends_with_suffix python_script ->
      ~ has_separator python_script ->
      _get_python_cmd python_script = Ok ("python -u -m " ++ python_script)).
Proof.
  unfold starts_with_interpreter, ends_with_suffix, has_separator, _get_python_cmd.
  rewrite <- startswith_iff, <- endswith_iff, <- str_in_iff.
  destruct (startswith python_script "python"),
    (endswith python_script ".py"), (str_in "/" python_script); simpl;
    repeat split; intros; try done; by eexists.
Qed.

Lemma init_exp1 :
  __init__ "exp1" Example.cfg "surreal.main.agent" "learn.py" None = Ok Example.exp1.
Proof. reflexivity. Qed.

Lemma session_group_outside self group :
  group ∉ ["agent"; "learner"; "infras"] ->
  _session_group self group = Err (AssertionError "").
Proof.
  intros H. unfold _session_group. by rewrite bool_decide_eq_false_2.
Qed.

(** C4, as amended.  For every cluster name, [_session_group] maps the
    tags ['infras'], ['learner'] and ['agent'] to ["infras-" + name],
    ["learner-" + name] and ["agent-" + name], which are pairwise distinct,
    and fails its assertion on every other tag: the tag of the
    infrastructure group is ['infras'], not ['infra']. *)
Theorem session_group_mapping name cfg a l e self :
  __init__ name cfg a l e = Ok self ->
  _session_group self "infras" = Ok ("infras-" ++ name)
  /\ _session_group self "learner" = Ok ("learner-" ++ name)
  /\ _session_group self "agent" = Ok ("agent-" ++ name)
  /\ "infras-" ++ name <> "learner-" ++ name
  /\ "infras-" ++ name <> "agent-" ++ name
  /\ "learner-" ++ name <> "agent-" ++ name
  /\ (forall group, group ∉ ["agent"; "learner"; "infras"] ->
      _session_group self group = Err (AssertionError "")).
Proof.
  intros (_ & Hi & Ha & Hl & _)%init_inv.
  rewrite <- Hi, <- Ha, <- Hl.
  repeat split; try reflexivity.
  1-3: rewrite ?Hi, ?Ha, ?Hl; apply session_ids_distinct.
  apply session_group_outside.
Qed.
End Naming.

(* ===================================================================== *)
(** ** The backend stays well-formed *)
(* ===================================================================== *)

Section Invariant.
Context (sig : list string -> option string).

Lemma names_put_window name cmd ws :
  map win_name (put_window name cmd ws)
  = if bool_decide (name ∈ map win_name ws) then map win_name ws
    else (map win_name ws ++ [name])%list.
Proof.
  induction ws as [|w ws IH]; [done|]. simpl.
  destruct (String.eqb_spec (win_name w) name) as [Heq|Hne]; simpl.
  - rewrite bool_decide_eq_true_2 by (rewrite Heq; left). by rewrite Heq.
  - rewrite IH. destruct (bool_decide (name ∈ map win_name ws)) eqn:E.
    + apply bool_decide_eq_true in E. by rewrite bool_decide_eq_true_2 by by right.
    + apply bool_decide_eq_false in E.
      rewrite bool_decide_eq_false_2; [done|].
      rewrite not_elem_of_cons. split; [congruence | done].
Qed.

Lemma put_window_not_nil name cmd ws : put_window name cmd ws <> [].
Proof. destruct ws as [|w ws]; simpl; [done|]. by destruct (String.eqb _ _). Qed.

Lemma NoDup_put_window name cmd ws :
  NoDup (map win_name ws) -> NoDup (map win_name (put_window name cmd ws)).
Proof.
  intros H. rewrite names_put_window.
  destruct (bool_decide (name ∈ map win_name ws)) eqn:E; [done|].
  apply bool_decide_eq_false in E. apply NoDup_app. split; [done|]. split.
  - intros x Hx ->%list_elem_of_singleton. done.
  - apply NoDup_singleton.
Qed.

Lemma wf_empty : wf ∅.
Proof. intros s ws H. by rewrite lookup_empty in H. Qed.

Lemma wf_createWindow st s w c : wf st -> wf (createWindow st s w c).
Proof.
  intros Hwf s' ws. rewrite lookup_createWindow.
  destruct (decide (s = s')) as [<-|Hne]; [|apply Hwf].
  intros [= <-]. split; [apply put_window_not_nil|].
  apply NoDup_put_window. unfold windows_of.
  destruct (st !! s) as [ws0|] eqn:E; [by apply (Hwf s ws0) | constructor].
Qed.

Lemma wf_killSession st s : wf st -> wf (killSession st s).
Proof.
  intros Hwf s' ws. rewrite lookup_killSession.
  destruct (decide (s = s')); [done | apply Hwf].
Qed.

Lemma NoDup_remove_window name ws :
  NoDup (map win_name ws) -> NoDup (map win_name (remove_window name ws)).
Proof.
  unfold remove_window. induction ws as [|w ws IH]; [done|]. simpl.
  intros [Hw Hws]%NoDup_cons.
  destruct (negb (String.eqb (win_name w) name)); [|by apply IH].
  simpl. apply NoDup_cons. split; [|by apply IH].
  intros Hin. apply Hw. apply list_elem_of_fmap in Hin as (x & -> & Hx).
  apply list_elem_of_fmap_2. apply list_elem_of_In in Hx.
  apply List.filter_In in Hx as [Hx _]. by apply list_elem_of_In.
Qed.

Lemma wf_killWindow st s w : wf st -> wf (killWindow st s w).
Proof.
  intros Hwf s' ws. rewrite lookup_killWindow.
  destruct (decide (s = s')) as [<-|Hne]; [|apply Hwf].
  unfold kill_in. destruct (st !! s) as [ws0|] eqn:E; [|done].
  destruct (bool_decide (w ∈ map win_name ws0)); [|intros [= <-]; by apply (Hwf s)].
  destruct (remove_window w ws0) as [|x ws'] eqn:R; [done|].
  intros [= <-]. split; [done|]. rewrite <- R.
  apply NoDup_remove_window. by apply (Hwf s ws0).
Qed.

(** Every program keeps the backend well-formed. *)
Lemma wf_final {A} (p : prog A) st : wf st -> wf (final sig p st).
Proof.
  unfold final. revert st.
  induction p as [a|e|s w c k IH|s w k IH|k IH|s k IH|s w h k IH|s w h k IH];
    intros st Hwf; simpl; try done.
  - specialize (IH (createWindow st s w c) (wf_createWindow _ _ _ _ Hwf)).
    by destruct (interp sig k _) as [[??]?].
  - destruct w as [w|].
    + specialize (IH (killWindow st s w) (wf_killWindow _ _ _ Hwf)).
      by destruct (interp sig k _) as [[??]?].
    + specialize (IH (killSession st s) (wf_killSession _ _ Hwf)).
      by destruct (interp sig k _) as [[??]?].
  - specialize (IH (listSessionNames st) st Hwf).
    by destruct (interp sig (k _) _) as [[??]?].
  - specialize (IH (listWindowNames st s) st Hwf).
    by destruct (interp sig (k _) _) as [[??]?].
  - specialize (IH (capturePane st s w h) st Hwf).
    by destruct (interp sig (k _) _) as [[??]?].
  - specialize (IH (findErrorInPane sig st s w h) st Hwf).
    by destruct (interp sig (k _) _) as [[??]?].
Qed.
End Invariant.

(* ===================================================================== *)
(** ** Inspecting the panes *)
(* ===================================================================== *)

Section Inspection.
Context (sig : list string -> option string).

Lemma outcome_for_fold {X S} (l : list X) (acc : S) (body : S -> X -> prog S)
    (g : S -> X -> S) st :
  (forall a x, read_only (body a x)) ->
  (forall a x, outcome sig (body a x) st = Ok (g a x)) ->
  outcome sig (for_fold l acc body) st = Ok (foldl g acc l).
Proof.
  intros Hro Hout. revert acc. induction l as [|x l IH]; intros acc; [done|].
  simpl. rewrite outcome_bind, Hout. unfold Ok.
  rewrite read_only_final by apply Hro. apply IH.
Qed.

Lemma read_only_iterate {S} self (acc : S) body :
  (forall a s w, read_only (body a s w)) ->
  read_only (_iterate_all_windows self acc body).
Proof.
  intros H. unfold _iterate_all_windows. apply read_only_for_fold.
  intros a sess. simpl. intros wins. apply read_only_for_fold. intros; apply H.
Qed.

Lemma outcome_iterate {S} self (acc : S) body (g : S -> string * string -> S) st :
  (forall a s w, read_only (body a s w)) ->
  (forall a s w, outcome sig (body a s w) st = Ok (g a (s, w))) ->
  outcome sig (_iterate_all_windows self acc body) st
  = Ok (foldl g acc (all_windows self st)).
Proof.
  intros Hro Hout. unfold _iterate_all_windows.
  rewrite (outcome_for_fold _ _ _
             (fun a sess => foldl g a (map (pair sess) (listWindowNames st sess)))).
  - unfold all_windows. by rewrite !foldl_app.
  - intros a sess. simpl. intros wins. apply read_only_for_fold. intros; apply Hro.
  - intros a sess. rewrite outcome_bind.
    change (outcome sig (list_window_names sess) st)
      with (inr (listWindowNames st sess) : result (list string)).
    change (final sig (list_window_names sess) st) with st. cbv beta iota.
    rewrite (outcome_for_fold _ _ _ (fun a0 w => g a0 (sess, w))) by (intros; auto).
    f_equal. generalize (listWindowNames st sess) as l. intros l. revert a.
    induction l as [|w l IH]; intros a; [done|]. simpl. apply IH.
Qed.

Lemma odict_set_fresh {V} (k : string) (v : V) (d : odict V) :
  k ∉ map fst d -> odict_set k v d = (d ++ [(k, v)])%list.
Proof.
  induction d as [|[k' v'] d IH]; [done|]. simpl.
  rewrite not_elem_of_cons. intros [Hne Hd].
  destruct (String.eqb_spec k' k) as [->|_]; [done|]. by rewrite IH.
Qed.

Lemma fst_entries {V} (value : string * string -> option V) slots :
  map fst (entries value slots)
  = map slot_key (filter (fun slot => is_Some (value slot)) slots).
Proof.
  unfold entries. induction slots as [|slot slots IH]; [done|].
  destruct (value slot) as [v|] eqn:E.
  - rewrite filter_cons_True by (rewrite E; by eexists).
    simpl. rewrite E. simpl. f_equal. exact IH.
  - rewrite filter_cons_False by (rewrite E; by intros [??]).
    simpl. rewrite E. simpl. exact IH.
Qed.

Lemma foldl_odict_step {V} (value : string * string -> option V) slots acc :
  NoDup (map slot_key slots) ->
  (forall slot, slot ∈ slots -> slot_key slot ∉ map fst acc) ->
  foldl (odict_step value) acc slots = (acc ++ entries value slots)%list.
Proof.
  revert acc. induction slots as [|slot slots IH]; intros acc Hnd Hfresh.
  { by rewrite app_nil_r. }
  simpl in *. apply NoDup_cons in Hnd as [Hslot Hnd].
  unfold odict_step at 2, entries. simpl.
  destruct (value slot) as [v|]; simpl.
  - rewrite odict_set_fresh by (apply Hfresh; left).
    rewrite IH; [by rewrite <- app_assoc | done |].
    intros s' Hs'. rewrite map_app, elem_of_app. intros [Hin|Hin].
    + by apply (Hfresh s'); [right|].
    + simpl in Hin. apply list_elem_of_singleton in Hin.
      apply Hslot. rewrite <- Hin. by apply list_elem_of_fmap_2.
  - apply IH; [done|]. intros s' Hs'. apply Hfresh. by right.
Qed.

Lemma wf_NoDup_names st session : wf st -> NoDup (listWindowNames st session).
Proof.
  intros Hwf. unfold listWindowNames, windows_of.
  destruct (st !! session) as [ws|] eqn:E; [|constructor].
  by apply (Hwf session ws).
Qed.

Lemma slot_key_inj session w1 w2 :
  slot_key (session, w1) = slot_key (session, w2) -> w1 = w2.
Proof.
  unfold slot_key. simpl. intros H%append_inj_l. by apply append_inj_l in H.
Qed.

Lemma NoDup_session_keys st session :
  wf st -> NoDup (map slot_key (map (pair session) (listWindowNames st session))).
Proof.
  intros Hwf. rewrite map_map.
  apply (NoDup_fmap_2_strong (fun w => slot_key (session, w))).
  - intros w1 w2 _ _. apply slot_key_inj.
  - by apply wf_NoDup_names.
Qed.

Lemma hd_char_session_keys (c : ascii) (session rest : string) k (names : list string) :
  session = String c rest ->
  k ∈ map slot_key (map (pair session) names) -> hd_char k = Some c.
Proof.
  intros -> Hk. rewrite map_map in Hk.
  apply list_elem_of_fmap in Hk as (w & -> & _). reflexivity.
Qed.

Lemma NoDup_all_keys name cfg a l e self st :
  __init__ name cfg a l e = Ok self -> wf st ->
  NoDup (map slot_key (all_windows self st)).
Proof.
  intros (_ & Hi & Ha & Hl & _)%init_inv Hwf. unfold all_windows.
  rewrite !map_app. apply NoDup_app. split; [by apply NoDup_session_keys|]. split.
  - intros k Hk Hk'.
    apply (hd_char_session_keys "a" _ ("gent-" ++ name)) in Hk; [|by rewrite Ha].
    apply elem_of_app in Hk' as [Hk'|Hk'].
    + apply (hd_char_session_keys "l" _ ("earner-" ++ name)) in Hk';
        [congruence | by rewrite Hl].
    + apply (hd_char_session_keys "i" _ ("nfras-" ++ name)) in Hk';
        [congruence | by rewrite Hi].
  - apply NoDup_app. split; [by apply NoDup_session_keys|].
    split; [|by apply NoDup_session_keys].
    intros k Hk Hk'.
    apply (hd_char_session_keys "l" _ ("earner-" ++ name)) in Hk; [|by rewrite Hl].
    apply (hd_char_session_keys "i" _ ("nfras-" ++ name)) in Hk';
      [congruence | by rewrite Hi].
Qed.

Lemma outcome_get_stdout self group window history st :
  outcome sig (get_stdout self group window history) st
  = match group_session self group window with
    | inl e => inl e
    | inr g =>
        Ok (foldl (odict_step (stdout_value st g (normalize_window window) history))
              [] (all_windows self st))
    end.
Proof.
  unfold get_stdout. rewrite outcome_bind.
  fold (group_session self group window).
  destruct (group_session self group window) as [e|g]; [done|].
  change (outcome sig (lift (inr g)) st) with (inr g : result (option scalar)).
  change (final sig (lift (inr g : result (option scalar))) st) with st.
  cbv beta iota zeta. fold (normalize_window window).
  apply outcome_iterate.
  - intros d s w.
    destruct (truthy_opt g && _)%bool; [done|].
    destruct (truthy_opt (normalize_window window) && _)%bool; [done|].
    by intros r.
  - intros d s w. unfold odict_step, stdout_value, selected. simpl.
    destruct (truthy_opt g && _)%bool; [done|].
    by destruct (truthy_opt (normalize_window window) && _)%bool.
Qed.

Lemma outcome_check_error self st :
  outcome sig (check_error self) st
  = Ok (foldl (odict_step (error_value sig st)) [] (all_windows self st)).
Proof.
  unfold check_error. apply outcome_iterate.
  - intros d s w r. destruct r as [msg|]; simpl; [|done].
    by destruct (negb (String.eqb msg "")).
  - intros d s w. unfold odict_step, error_value, error_text, outcome. simpl.
    destruct (findErrorInPane sig st s w 100) as [msg|]; [|done].
    by destruct (negb (String.eqb msg "")).
Qed.

Lemma read_only_get_stdout self group window history :
  read_only (get_stdout self group window history).
Proof.
  unfold get_stdout. apply read_only_bind.
  - by destruct (match group with Some _ => _ | None => _ end).
  - intros g. apply read_only_iterate. intros d s w.
    destruct (truthy_opt g && _)%bool; [done|].
    destruct (truthy_opt _ && _)%bool; [done|]. by intros r.
Qed.

Lemma read_only_check_error self : read_only (check_error self).
Proof.
  unfold check_error. apply read_only_iterate. intros d s w r.
  destruct r as [msg|]; simpl; [|done]. by destruct (negb (String.eqb msg "")).
Qed.

(** [get_stdout] on a cluster built by [__init__], over a well-formed
    backend: one entry per selected slot, in enumeration order. *)
Lemma get_stdout_entries name cfg a l e self group window history st :
  __init__ name cfg a l e = Ok self -> wf st ->
  outcome sig (get_stdout self group window history) st
  = match group_session self group window with
    | inl e => inl e
    | inr g =>
        Ok (entries (stdout_value st g (normalize_window window) history)
              (all_windows self st))
    end.
Proof.
  intros Hinit Hwf. rewrite outcome_get_stdout.
  destruct (group_session self group window) as [?|g]; [done|].
  rewrite foldl_odict_step; [done | by eapply NoDup_all_keys |].
  intros slot _. apply not_elem_of_nil.
Qed.

Lemma check_error_entries name cfg a l e self st :
  __init__ name cfg a l e = Ok self -> wf st ->
  outcome sig (check_error self) st
  = Ok (entries (error_value sig st) (all_windows self st)).
Proof.
  intros Hinit Hwf. rewrite outcome_check_error.
  rewrite foldl_odict_step; [done | by eapply NoDup_all_keys |].
  intros slot _. apply not_elem_of_nil.
Qed.

Lemma elem_of_entries {V} (value : string * string -> option V) slots k v :
  (k, v) ∈ entries value slots
  <-> exists slot, slot ∈ slots /\ k = slot_key slot /\ value slot = Some v.
Proof.
  unfold entries. rewrite list_elem_of_omap. split.
  - intros (slot & Hin & Hv). exists slot. split; [done|].
    destruct (value slot) as [v'|]; simpl in Hv; [|done]. by injection Hv as -> ->.
  - intros (slot & Hin & -> & Hv). exists slot. split; [done|]. by rewrite Hv.
Qed.

Lemma error_value_Some st slot v :
  error_value sig st slot = Some v
  <-> findErrorInPane sig st (fst slot) (snd slot) 100 = Some v /\ v <> "".
Proof.
  unfold error_value, error_text.
  destruct (findErrorInPane sig st (fst slot) (snd slot) 100) as [msg|].
  - destruct (String.eqb_spec msg "") as [->|Hne]; simpl.
    + split; [done | by intros [[= <-] ?]].
    + split; [by intros [= <-] | by intros [[= <-] _]].
  - split; [done | by intros [? _]].
Qed.

(** C10.  On a cluster built by [__init__] and a well-formed backend, the
    keys of the mapping [get_stdout] returns are those of the agent
    session, then of the learner session, then of the infrastructure
    session, each in the listing order of the backend; a restricted call
    and [check_error] keep a part of that enumeration, in the same order;
    and both calls leave the backend as it was, so the order is the same on
    every call. *)
Theorem inspection_order name cfg a l e self st :
  __init__ name cfg a l e = Ok self -> wf st ->
  (forall history, exists d,
      outcome sig (get_stdout self None None history) st = Ok d
      /\ odict_keys d
         = (map (fun w => ("agent-" ++ name ++ ":" ++ w)%string)
              (listWindowNames st ("agent-" ++ name)%string)
            ++ map (fun w => ("learner-" ++ name ++ ":" ++ w)%string)
                 (listWindowNames st ("learner-" ++ name)%string)
            ++ map (fun w => ("infras-" ++ name ++ ":" ++ w)%string)
                 (listWindowNames st ("infras-" ++ name)%string))%list)
  /\ (forall group window history d,
        outcome sig (get_stdout self group window history) st = Ok d ->
        exists g,
          group_session self group window = Ok g
          /\ odict_keys d
             = map slot_key
                 (filter (fun slot => selected g (normalize_window window) slot = true)
                    (all_windows self st)))
  /\ (exists d,
        outcome sig (check_error self) st = Ok d
        /\ odict_keys d
           = map slot_key
               (filter (fun slot => is_Some (error_value sig st slot))
                  (all_windows self st)))
  /\ all_windows self st
     = (map (pair ("agent-" ++ name)%string) (listWindowNames st ("agent-" ++ name)%string)
        ++ map (pair ("learner-" ++ name)%string) (listWindowNames st ("learner-" ++ name)%string)
        ++ map (pair ("infras-" ++ name)%string) (listWindowNames st ("infras-" ++ name)%string))%list
  /\ (forall group window history,
        final sig (get_stdout self group window history) st = st)
  /\ final sig (check_error self) st = st.
Proof.
  intros Hinit Hwf.
  destruct (init_inv _ _ _ _ _ _ Hinit) as (_ & Hi & Ha & Hl & _).
  assert (Hall : all_windows self st
     = (map (pair ("agent-" ++ name)%string) (listWindowNames st ("agent-" ++ name)%string)
        ++ map (pair ("learner-" ++ name)%string) (listWindowNames st ("learner-" ++ name)%string)
        ++ map (pair ("infras-" ++ name)%string) (listWindowNames st ("infras-" ++ name)%string))%list).
  { unfold all_windows. by rewrite Hi, Ha, Hl. }
  split; [|split; [|split; [|split; [|split]]]].
  - intros history. eexists. split.
    + rewrite (get_stdout_entries _ _ _ _ _ _ _ _ _ _ Hinit Hwf). reflexivity.
    + unfold odict_keys. rewrite fst_entries.
      rewrite filter_all by (apply Forall_forall; intros; by eexists).
      rewrite Hall, !map_app, !map_map. reflexivity.
  - intros group window history d.
    rewrite (get_stdout_entries _ _ _ _ _ _ _ _ _ _ Hinit Hwf).
    destruct (group_session self group window) as [?|g]; [done|].
    intros [= <-]. exists g. split; [done|].
    unfold odict_keys. rewrite fst_entries. f_equal. apply list_filter_iff.
    intros slot. unfold stdout_value.
    destruct (selected g (normalize_window window) slot); split; done.
  - eexists. split.
    + by rewrite (check_error_entries _ _ _ _ _ _ _ Hinit Hwf).
    + unfold odict_keys. by rewrite fst_entries.
  - exact Hall.
  - intros. apply read_only_final, read_only_get_stdout.
  - apply read_only_final, read_only_check_error.
Qed.

(** C8, as amended.  [check_error] takes no group and no window: it
    visits every (session, window) pair in the order of [get_stdout], asks
    the backend for an error in the pane at a scroll-back depth of 100, and
    returns, in that order and under the key ["session:window"], exactly
    the panes with a non-empty error text.  That is what the specification
    says of the call with neither group nor window. *)
Theorem check_error_all_windows name cfg a l e self st :
  __init__ name cfg a l e = Ok self -> wf st ->
  exists d,
    outcome sig (check_error self) st = Ok d
    /\ odict_keys d
       = map slot_key
           (filter (fun slot => is_Some (error_value sig st slot))
              (all_windows self st))
    /\ (forall k v,
          (k, v) ∈ d
          <-> exists sess win,
              (sess, win) ∈ all_windows self st
              /\ k = sess ++ ":" ++ win
              /\ findErrorInPane sig st sess win 100 = Some v
              /\ v <> "")
    /\ check_error_claimed sig self None None st = Ok d.
Proof.
  intros Hinit Hwf. eexists. split; [|split; [|split]].
  - by rewrite (check_error_entries _ _ _ _ _ _ _ Hinit Hwf).
  - unfold odict_keys. by rewrite fst_entries.
  - intros k v. rewrite elem_of_entries. split.
    + intros ([sess win] & Hin & -> & Hv%error_value_Some).
      exists sess, win. by destruct Hv.
    + intros (sess & win & Hin & -> & Hv & Hne).
      exists (sess, win). split; [done|]. split; [done|].
      by apply error_value_Some.
  - unfold check_error_claimed. simpl. f_equal.
    rewrite filter_all by (by apply Forall_forall). reflexivity.
Qed.

(** [get_stdout] with a window but no group. *)
Lemma get_stdout_window_without_group self w history st :
  interp sig (get_stdout self None (Some w) history) st
  = (Err (AssertionError ""), st, []).
Proof. reflexivity. Qed.
End Inspection.

(* ===================================================================== *)
(** ** A session from launch to killall *)
(* ===================================================================== *)

Section Scenario.
Context (sig : list string -> option string) (json_dumps : Config -> string).

Lemma outcome_launch self names args st :
  distinct_sessions self ->
  outcome sig (launch json_dumps self names args) st
  = if present st (agent_session self) then Ok tt
    else match _get_agent_info names args with
         | inl e => inl e
         | inr (ns, _) =>
             if disjoint_names (listWindowNames st (agent_session self)) ns
             then Ok tt
             else Err (AssertionError
                         "some agents already running, cannot launch duplicates.")
         end.
Proof.
  intros (Hil & Hia & Hla).
  unfold launch, outcome at 1.
  erewrite interp_bind_ok by apply interp_is_launched_infras. cbn [fst].
  destruct (interp_infra_stage sig json_dumps self st (present st (infras_session self)))
    as (st1 & E1 & F1).
  unfold outcome at 1. erewrite interp_bind_ok by exact E1. cbn [fst].
  unfold outcome at 1. erewrite interp_bind_ok by apply interp_is_launched_learner.
  cbn [fst].
  destruct (interp_learner_stage sig self st1 (present st1 (learner_session self)))
    as (st2 & E2 & F2).
  unfold outcome at 1. erewrite interp_bind_ok by exact E2. cbn [fst].
  unfold outcome at 1. erewrite interp_bind_ok by apply interp_is_launched_agent.
  cbn [fst].
  assert (st2 !! agent_session self = st !! agent_session self) as F
    by (rewrite F2, F1; congruence).
  rewrite (present_ext st st2) by done.
  destruct (present st (agent_session self)); simpl; [done|].
  rewrite <- (listWindowNames_ext st st2) by done.
  apply interp_add_agents.
Qed.

Lemma interp_killall self st :
  interp sig (killall self) st
  = (Ok tt,
     killSession (killSession (killSession st (agent_session self))
                    (learner_session self)) (infras_session self),
     [Ekill (agent_session self) None; Ekill (learner_session self) None;
      Ekill (infras_session self) None]).
Proof. reflexivity. Qed.

Lemma outcome_is_launched self group sess st :
  _session_group self group = Ok sess ->
  outcome sig (is_launched self group) st = Ok (present st sess).
Proof. intros H. unfold outcome. by rewrite (interp_is_launched sig _ _ sess). Qed.

Lemma launch_infras_up self names args st :
  distinct_sessions self ->
  is_Some (final sig (launch json_dumps self names args) st !! infras_session self).
Proof.
  intros Hd.
  rewrite lookup_final, trace_launch, foldl_launch_trace_infras by done.
  destruct (present st (infras_session self)) eqn:E.
  - by apply present_iff.
  - apply foldl_infra_calls_is_Some.
Qed.

Lemma launch_learner_up self names args st :
  distinct_sessions self ->
  is_Some (final sig (launch json_dumps self names args) st !! learner_session self).
Proof.
  intros Hd.
  rewrite lookup_final, trace_launch, foldl_launch_trace_learner by done.
  destruct (present st (learner_session self)) eqn:E.
  - by apply present_iff.
  - apply foldl_learner_calls_is_Some.
Qed.

Lemma launch_agent_session self names args st :
  distinct_sessions self ->
  final sig (launch json_dumps self names args) st !! agent_session self
  = foldl (step_session (agent_session self)) (st !! agent_session self)
      (if present st (agent_session self) then []
       else add_agents_trace self names args
              (listWindowNames st (agent_session self))).
Proof.
  intros Hd. by rewrite lookup_final, trace_launch, foldl_launch_trace_agent.
Qed.

Lemma present_listWindowNames_None st s :
  st !! s = None -> present st s = false /\ listWindowNames st s = [].
Proof.
  intros H. split; [by apply present_false_iff|].
  unfold listWindowNames, windows_of. by rewrite H.
Qed.

Lemma kill_agents_names self names st :
  is_Some (st !! agent_session self) ->
  listWindowNames (final sig (kill_agents self names) st) (agent_session self)
  = filter (fun w => w ∉ map str names) (listWindowNames st (agent_session self)).
Proof.
  intros Hpres%present_iff.
  assert (Ht : trace sig (kill_agents self names) st
               = Elist_session_names :: kill_calls self names).
  { unfold trace. by rewrite interp_kill_agents, Hpres. }
  unfold listWindowNames, windows_of. rewrite lookup_final, Ht. simpl.
  apply names_foldl_kill_calls.
Qed.

Lemma killall_gone self st s :
  s = agent_session self \/ s = learner_session self \/ s = infras_session self ->
  final sig (killall self) st !! s = None.
Proof.
  intros Hs. rewrite lookup_final.
  change (trace sig (killall self) st)
    with [Ekill (agent_session self) None; Ekill (learner_session self) None;
          Ekill (infras_session self) None].
  simpl. destruct Hs as [-> | [-> | ->]].
  - rewrite (decide_True (P := agent_session self = agent_session self)) by done.
    by repeat case_decide.
  - rewrite (decide_True (P := learner_session self = learner_session self)) by done.
    by repeat case_decide.
  - by rewrite (decide_True (P := infras_session self = infras_session self)).
Qed.

(** C6, as amended.  From a backend where none of the three sessions
    exists: after [launch(["agent0"], [["--id", 0]])] the queries
    [is_launched("infras")], [is_launched("learner")] and
    [is_launched("agent")] return true and the running agents are
    ["agent0"]; after [add_agents(["agent1"], ["--id 1"])] they are
    ["agent0", "agent1"]; after [kill_agents(["agent0"])] only ["agent1"]
    is left; after [killall()] the three queries return false. *)
Theorem launch_add_kill_killall name cfg a l e self st :
  __init__ name cfg a l e = Ok self ->
  st !! ("infras-" ++ name) = None ->
  st !! ("learner-" ++ name) = None ->
  st !! ("agent-" ++ name) = None ->
  let st1 := final sig (launch json_dumps self [PyStr "agent0"]
                          [ArgList [PyStr "--id"; PyInt 0]]) st in
  let st2 := final sig (add_agents self [PyStr "agent1"] [ArgStr "--id 1"]) st1 in
  let st3 := final sig (kill_agents self [PyStr "agent0"]) st2 in
  let st4 := final sig (killall self) st3 in
  outcome sig (launch json_dumps self [PyStr "agent0"]
                 [ArgList [PyStr "--id"; PyInt 0]]) st = Ok tt
  /\ outcome sig (is_launched self "infras") st1 = Ok true
  /\ outcome sig (is_launched self "learner") st1 = Ok true
  /\ outcome sig (is_launched self "agent") st1 = Ok true
  /\ outcome sig (get_running_agents self) st1 = Ok ["agent0"]
  /\ outcome sig (add_agents self [PyStr "agent1"] [ArgStr "--id 1"]) st1 = Ok tt
  /\ outcome sig (get_running_agents self) st2 = Ok ["agent0"; "agent1"]
  /\ outcome sig (kill_agents self [PyStr "agent0"]) st2 = Ok tt
  /\ outcome sig (get_running_agents self) st3 = Ok ["agent1"]
  /\ outcome sig (killall self) st3 = Ok tt
  /\ outcome sig (is_launched self "infras") st4 = Ok false
  /\ outcome sig (is_launched self "learner") st4 = Ok false
  /\ outcome sig (is_launched self "agent") st4 = Ok false.
Proof.
  intros Hinit Hi0 Hl0 Ha0 st1 st2 st3 st4.
  pose proof (init_distinct _ _ _ _ _ _ Hinit) as Hd.
  pose proof Hd as (Hil & Hia & Hla).
  destruct (init_inv _ _ _ _ _ _ Hinit) as (_ & Hi & Ha & Hl & _).
  rewrite <- Hi in Hi0. rewrite <- Hl in Hl0. rewrite <- Ha in Ha0.
  destruct (present_listWindowNames_None _ _ Ha0) as [Hpa Hwa].
  set (w0 := new_window "agent0" (agent_cmd self ++ " " ++ "--id 0")).
  set (w1 := new_window "agent1" (agent_cmd self ++ " " ++ "--id 1")).
  assert (Hinfo0 : _get_agent_info [PyStr "agent0"] [ArgList [PyStr "--id"; PyInt 0]]
                   = inr (["agent0"], ["--id 0"])) by (vm_compute; reflexivity).
  assert (Hinfo1 : _get_agent_info [PyStr "agent1"] [ArgStr "--id 1"]
                   = inr (["agent1"], ["--id 1"])) by (vm_compute; reflexivity).
  (* after launch *)
  assert (H1a : st1 !! agent_session self = Some [w0]).
  { unfold st1. rewrite launch_agent_session, Hpa, Hwa, Ha0 by done.
    unfold add_agents_trace. rewrite Hinfo0, disjoint_names_nil. simpl.
    by rewrite decide_True. }
  assert (H1i : is_Some (st1 !! infras_session self)) by by apply launch_infras_up.
  assert (H1l : is_Some (st1 !! learner_session self)) by by apply launch_learner_up.
  assert (Hw1 : listWindowNames st1 (agent_session self) = ["agent0"]).
  { unfold listWindowNames, windows_of. by rewrite H1a. }
  (* after add_agents *)
  assert (Hdisj : disjoint_names ["agent0"] ["agent1"] = true)
    by (vm_compute; reflexivity).
  assert (E2 : interp sig (add_agents self [PyStr "agent1"] [ArgStr "--id 1"]) st1
               = (Ok tt, st2,
                  Elist_window_names (agent_session self)
                  :: agent_calls self ["agent1"] ["--id 1"])).
  { rewrite interp_add_agents_full, Hinfo1, Hw1, Hdisj. done. }
  assert (T2 : trace sig (add_agents self [PyStr "agent1"] [ArgStr "--id 1"]) st1
               = Elist_window_names (agent_session self)
                 :: agent_calls self ["agent1"] ["--id 1"])
    by (unfold trace; by rewrite E2).
  assert (H2a : st2 !! agent_session self = Some [w0; w1]).
  { unfold st2. rewrite lookup_final, T2, H1a. simpl. by rewrite decide_True. }
  assert (H2o : forall s, s <> agent_session self -> st2 !! s = st1 !! s).
  { intros s Hs. unfold st2. apply final_spares. rewrite T2.
    constructor; [done|]. by apply Forall_spares_agent_calls. }
  (* after kill_agents *)
  assert (Hp2 : present st2 (agent_session self) = true)
    by (apply present_iff; by rewrite H2a).
  assert (E3 : interp sig (kill_agents self [PyStr "agent0"]) st2
               = (Ok tt, st3, Elist_session_names :: kill_calls self [PyStr "agent0"])).
  { by rewrite interp_kill_agents, Hp2. }
  assert (T3 : trace sig (kill_agents self [PyStr "agent0"]) st2
               = Elist_session_names :: kill_calls self [PyStr "agent0"])
    by (unfold trace; by rewrite E3).
  assert (H3a : listWindowNames st3 (agent_session self) = ["agent1"]).
  { unfold st3. rewrite kill_agents_names by (by rewrite H2a).
    unfold listWindowNames, windows_of. rewrite H2a. reflexivity. }
  (* after killall *)
  assert (H4 : forall s, s = agent_session self \/ s = learner_session self
                         \/ s = infras_session self -> present st4 s = false).
  { intros s Hs. apply present_false_iff. by apply killall_gone. }
  repeat split.
  - rewrite outcome_launch, Hpa, Hwa by done. by rewrite Hinfo0, disjoint_names_nil.
  - rewrite (outcome_is_launched _ _ _ _ (session_group_infras self)).
    f_equal. by apply present_iff.
  - rewrite (outcome_is_launched _ _ _ _ (session_group_learner self)).
    f_equal. by apply present_iff.
  - rewrite (outcome_is_launched _ _ _ _ (session_group_agent self)).
    f_equal. apply present_iff. by rewrite H1a.
  - unfold outcome. simpl. by rewrite Hw1.
  - unfold outcome. by rewrite E2.
  - unfold outcome. simpl. unfold listWindowNames, windows_of. by rewrite H2a.
  - unfold outcome. by rewrite E3.
  - unfold outcome. simpl. by rewrite H3a.
  - rewrite (outcome_is_launched _ _ _ _ (session_group_infras self)).
    f_equal. apply H4. auto.
  - rewrite (outcome_is_launched _ _ _ _ (session_group_learner self)).
    f_equal. apply H4. auto.
  - rewrite (outcome_is_launched _ _ _ _ (session_group_agent self)).
    f_equal. apply H4. auto.
Qed.
End Scenario.

(* ===================================================================== *)
(** ** Scripts and agent requests *)
(* ===================================================================== *)

Section Scripts.

Lemma get_python_cmd_Err script err :
  _get_python_cmd script = Err err
  <-> ill_formed script /\ err = script_error script.
Proof.
  unfold ill_formed, starts_with_interpreter, ends_with_suffix, has_separator,
    _get_python_cmd.
  rewrite <- startswith_iff, <- endswith_iff, <- str_in_iff.
  destruct (startswith script "python"), (endswith script ".py"),
    (str_in "/" script); simpl; split; try done;
    try (intros [(? & ? & ?) _]; done).
  - intros [= <-]. by repeat split.
  - by intros [_ ->].
Qed.

Lemma get_python_cmd_ill_formed script :
  ill_formed script -> _get_python_cmd script = Err (script_error script).
Proof. intros H. by apply get_python_cmd_Err. Qed.

(** X1.  A command [_get_python_cmd] builds starts with the interpreter
    name, so building a command from it again returns it unchanged. *)
Theorem get_python_cmd_idempotent script cmd :
  _get_python_cmd script = Ok cmd ->
  starts_with_interpreter cmd /\ _get_python_cmd cmd = Ok cmd.
Proof.
  intros H.
  assert (Hs : starts_with_interpreter cmd).
  { unfold _get_python_cmd in H.
    destruct (startswith script "python") eqn:E.
    - injection H as <-. by apply startswith_iff.
    - destruct (negb _ && _)%bool; [done|].
      destruct (endswith script ".py"); injection H as <-.
      + by exists (" -u " ++ script).
      + by exists (" -u -m " ++ script). }
  split; [done|].
  unfold _get_python_cmd.
  by rewrite (proj2 (startswith_iff cmd "python") Hs).
Qed.

(** X2.  [__init__] raises exactly when one of the scripts it is given is
    ill-formed (it holds a [/], does not end in [.py] and does not start with
    [python]); what it raises is the [ValueError] of the first such script
    among the agent's, the learner's and the evaluator's.  Otherwise the
    commands are those of the scripts, and there is an evaluator command
    exactly when there is an evaluator script. *)
Theorem init_rejects_ill_formed_scripts name cfg a l e :
  (forall err,
     __init__ name cfg a l e = Err err
     <-> exists s,
         err = script_error s
         /\ (s = a /\ ill_formed a
             \/ s = l /\ ~ ill_formed a /\ ill_formed l
             \/ e = Some s /\ ~ ill_formed a /\ ~ ill_formed l /\ ill_formed s))
  /\ (forall self,
        __init__ name cfg a l e = Ok self ->
        _get_python_cmd a = Ok (agent_cmd self)
        /\ _get_python_cmd l = Ok (learner_cmd self)
        /\ match e with
           | None => evaluator_cmd self = None
           | Some s => exists c, _get_python_cmd s = Ok c /\ evaluator_cmd self = Some c
           end).
Proof.
  split.
  - intros err. unfold __init__.
    destruct (_get_python_cmd a) as [ea|ca] eqn:Ea; simpl.
    { apply get_python_cmd_Err in Ea as [Ha ->]. split.
      - intros [= <-]. exists a. split; [done|]. by left.
      - intros (s & -> & [[-> _]|[[_ [Hn _]]|(_ & Hn & _)]]); done. }
    assert (Hna : ~ ill_formed a).
    { intros Hill. rewrite (get_python_cmd_ill_formed a Hill) in Ea. done. }
    destruct (_get_python_cmd l) as [el|cl] eqn:El; simpl.
    { apply get_python_cmd_Err in El as [Hl ->]. split.
      - intros [= <-]. exists l. split; [done|]. right; by left.
      - intros (s & -> & [[_ ?]|[[-> _]|(_ & _ & Hn & _)]]); done. }
    assert (Hnl : ~ ill_formed l).
    { intros Hill. rewrite (get_python_cmd_ill_formed l Hill) in El. done. }
    destruct e as [s|]; simpl.
    + destruct (_get_python_cmd s) as [es|cs] eqn:Es; simpl.
      * apply get_python_cmd_Err in Es as [Hs ->]. split.
        -- intros [= <-]. exists s. split; [done|]. right; right. done.
        -- intros (s' & -> & [[_ ?]|[[_ [_ ?]]|([= ->] & _)]]); done.
      * split; [done|].
        intros (s' & _ & [[_ ?]|[[_ [_ ?]]|([= <-] & _ & _ & Hill)]]); try done.
        rewrite (get_python_cmd_ill_formed s Hill) in Es. done.
    + split; [done|].
      intros (s' & _ & [[_ ?]|[[_ [_ ?]]|(? & _)]]); done.
  - intros self. unfold __init__.
    destruct (_get_python_cmd a) as [?|ca]; [done|].
    destruct (_get_python_cmd l) as [?|cl]; [done|]. simpl.
    destruct e as [s|]; simpl.
    + destruct (_get_python_cmd s) as [?|cs]; [done|]. simpl.
      intros [= <-]. simpl. repeat split. by exists cs.
    + by intros [= <-].
Qed.

(** The loop of [_get_agent_info] turns every entry into its command text,
    in order, and stops at the first entry of another type. *)
Lemma agent_args_loop_Ok args acc r :
  agent_args_loop args acc = Ok r
  <-> exists cmds, r = (acc ++ cmds)%list
                   /\ Forall2 (fun a c => agent_arg a = Ok c) args cmds.
Proof.
  revert acc. induction args as [|x args IH]; intros acc; simpl.
  - split.
    + intros [= <-]. exists []. by rewrite app_nil_r.
    + intros (cmds & -> & ->%Forall2_nil_inv_l). by rewrite app_nil_r.
  - destruct (agent_arg x) as [e|c] eqn:E; simpl.
    + split; [done|]. intros (cmds & _ & H).
      apply Forall2_cons_inv_l in H as (c & ? & Hc & _). unfold Ok in Hc. congruence.
    + rewrite IH. split.
      * intros (cmds & -> & H). exists (c :: cmds).
        rewrite <- app_assoc. split; [done|]. by constructor.
      * intros (cmds & -> & H).
        apply Forall2_cons_inv_l in H as (c' & cmds' & Hc & H & ->).
        unfold Ok in Hc. rewrite E in Hc. injection Hc as <-.
        exists cmds'. by rewrite <- app_assoc.
Qed.

Lemma agent_args_loop_Err args acc :
  (exists l, ArgTuple l ∈ args)
  <-> agent_args_loop args acc
      = Err (ValueError ("Must be a list of command line arg list "
                         ++ "OR a list of command strings.")).
Proof.
  revert acc. induction args as [|x args IH]; intros acc; simpl.
  - split; [intros [l Hl]; by apply elem_of_nil in Hl | done].
  - destruct x as [|s|l|l]; simpl;
      try (rewrite <- IH; split;
           [intros [l' [?|?]%elem_of_cons]; [done | by exists l']
           |intros [l' ?]; exists l'; by right]).
    split; [done|]. intros _. exists l. by left.
Qed.

Lemma agent_args_loop_cases args acc :
  (exists l, ArgTuple l ∈ args) \/ exists r, agent_args_loop args acc = Ok r.
Proof.
  revert acc. induction args as [|x args IH]; intros acc; simpl.
  - right. by eexists.
  - destruct x as [|s|l|l]; simpl.
    + destruct (IH (acc ++ [""])%list) as [[l' ?]|?];
        [left; exists l'; by right | by right].
    + destruct (IH (acc ++ [s])%list) as [[l' ?]|?];
        [left; exists l'; by right | by right].
    + destruct (IH (acc ++ [join " " (map str l)])%list) as [[l' ?]|?];
        [left; exists l'; by right | by right].
    + left. exists l. by left.
Qed.

(** X3.  [_get_agent_info]: names are compared after [str], so the integer 1
    and the string "1" are a repeat; repeats are reported before a length
    mismatch, and a length mismatch before an entry that is neither [None],
    a string nor a list.  A request that passes gives the names as strings,
    without repeats, and one command text per name. *)
Theorem get_agent_info_cases names args :
  (~ NoDup (map str names) ->
   _get_agent_info names args = Err (AssertionError "must not duplicate agent names"))
  /\ (NoDup (map str names) -> length names <> length args ->
      _get_agent_info names args = Err (AssertionError ""))
  /\ (NoDup (map str names) -> length names = length args ->
      (exists l, ArgTuple l ∈ args) ->
      _get_agent_info names args
      = Err (ValueError ("Must be a list of command line arg list "
                         ++ "OR a list of command strings.")))
  /\ (NoDup (map str names) -> length names = length args ->
      (forall l, ArgTuple l ∉ args) ->
      exists cmds, _get_agent_info names args = Ok (map str names, cmds))
  /\ (forall ns cmds,
        _get_agent_info names args = Ok (ns, cmds) ->
        ns = map str names /\ NoDup ns /\ length cmds = length ns
        /\ Forall2 (fun a c => agent_arg a = Ok c) args cmds).
Proof.
  unfold _get_agent_info.
  destruct (Nat.eqb (length (map str names)) _) eqn:Edup; simpl.
  2: { repeat split; try done.
       all: intros Hnd; apply no_repeat_iff in Hnd; congruence. }
  apply no_repeat_iff in Edup. rewrite length_map.
  destruct (Nat.eqb_spec (length names) (length args)) as [Hlen|Hlen]; simpl.
  2: { repeat split; done. }
  split; [done|]. split; [done|]. split; [|split].
  - intros _ _ Htuple. apply (agent_args_loop_Err args []) in Htuple.
    by rewrite Htuple.
  - intros _ _ Hnone.
    destruct (agent_args_loop_cases args []) as [[l Hl]|[r Hr]].
    + by destruct (Hnone l).
    + rewrite Hr. by exists r.
  - intros ns cmds.
    destruct (agent_args_loop args []) as [?|r] eqn:Er; [done|]. simpl.
    intros [= <- <-].
    apply agent_args_loop_Ok in Er as (cmds & -> & HF). simpl.
    repeat split; try done.
    apply Forall2_length in HF. rewrite length_map. lia.
Qed.

Lemma ill_formed_iff s :
  ill_formed s
  <-> (negb (startswith s "python") && negb (endswith s ".py") && str_in "/" s)%bool
      = true.
Proof.
  unfold ill_formed, starts_with_interpreter, ends_with_suffix, has_separator.
  rewrite <- startswith_iff, <- endswith_iff, <- str_in_iff.
  destruct (startswith s "python"), (endswith s ".py"), (str_in "/" s); simpl;
    split; try done; intros (? & ? & ?); done.
Qed.

End Scripts.

(* ===================================================================== *)
(** ** Growing and shrinking the fleet *)
(* ===================================================================== *)

Section FleetGrowth.
Context (sig : list string -> option string).

Lemma put_window_fresh name cmd ws :
  name ∉ map win_name ws -> put_window name cmd ws = (ws ++ [new_window name cmd])%list.
Proof.
  induction ws as [|w ws IH]; [done|]. simpl.
  rewrite not_elem_of_cons. intros [Hne Hws].
  destruct (String.eqb_spec (win_name w) name) as [Heq|_]; [by destruct Hne|].
  by rewrite IH.
Qed.

Lemma fst_zip_same_length {X Y} (l : list X) (k : list Y) :
  length l = length k -> map fst (zip l k) = l.
Proof.
  revert k. induction l as [|x l IH]; intros [|y k]; simpl; try done.
  intros [= H]. by rewrite IH.
Qed.

Lemma names_agent_windows self ns cmds :
  length cmds = length ns -> map win_name (agent_windows self ns cmds) = ns.
Proof.
  intros Hlen. unfold agent_windows. rewrite map_map.
  rewrite <- (fst_zip_same_length ns cmds) at 2 by done.
  apply map_ext. by intros [n c].
Qed.

(** Creating windows under names that are new and distinct appends them to
    the session, in order. *)
Lemma foldl_agent_calls_Some self ns cmds ws :
  length cmds = length ns -> NoDup ns ->
  (forall n, n ∈ ns -> n ∉ map win_name ws) ->
  foldl (step_session (agent_session self)) (Some ws) (agent_calls self ns cmds)
  = Some (ws ++ agent_windows self ns cmds)%list.
Proof.
  unfold agent_calls, agent_windows.
  revert cmds ws. induction ns as [|n ns IH]; intros [|c cmds] ws Hlen Hnd Hfresh;
    simpl in *; try done.
  { by rewrite app_nil_r. }
  apply NoDup_cons in Hnd as [Hn Hnd]. injection Hlen as Hlen.
  rewrite decide_True by done. simpl.
  rewrite put_window_fresh by (apply Hfresh; left).
  rewrite IH; [by rewrite <- app_assoc | done | done |].
  intros m Hm. rewrite map_app, elem_of_app. intros [Hin|Hin].
  - by apply (Hfresh m); [right|].
  - simpl in Hin. apply list_elem_of_singleton in Hin. by subst m.
Qed.

Lemma foldl_agent_calls self ns cmds o :
  length cmds = length ns -> NoDup ns ->
  (forall n, n ∈ ns -> n ∉ names_of o) ->
  foldl (step_session (agent_session self)) o (agent_calls self ns cmds)
  = match ns with
    | [] => o
    | _ => Some (default [] o ++ agent_windows self ns cmds)%list
    end.
Proof.
  intros Hlen Hnd Hfresh. destruct o as [ws|].
  - rewrite foldl_agent_calls_Some by done. destruct ns, cmds; try done.
    unfold agent_windows. simpl. by rewrite app_nil_r.
  - destruct ns as [|n ns], cmds as [|c cmds]; try done.
    change (agent_calls self (n :: ns) (c :: cmds))
      with (Erun (agent_session self) n (agent_cmd self ++ " " ++ c)
            :: agent_calls self ns cmds).
    simpl foldl. rewrite decide_True by done. simpl.
    apply NoDup_cons in Hnd as [Hn Hnd]. injection Hlen as Hlen.
    rewrite foldl_agent_calls_Some; [done | done | done |].
    intros m Hm. simpl. rewrite list_elem_of_singleton. by intros ->.
Qed.

Lemma disjoint_names_true running ns :
  (forall n, n ∈ ns -> n ∉ running) <-> disjoint_names running ns = true.
Proof.
  unfold disjoint_names. rewrite bool_decide_eq_true. split.
  - intros H. apply elem_of_equiv_empty_L. intros n.
    rewrite elem_of_intersection, !elem_of_list_to_set. intros [Hr Hn].
    by apply (H n).
  - intros H n Hn Hr.
    assert (n ∈ (list_to_set running ∩ list_to_set ns : gset string)) as Hin
      by (apply elem_of_intersection; by rewrite !elem_of_list_to_set).
    rewrite H in Hin. by apply not_elem_of_empty in Hin.
Qed.

(** What a request that passes [_get_agent_info] looks like. *)
Lemma get_agent_info_Ok names args ns cmds :
  _get_agent_info names args = Ok (ns, cmds) ->
  ns = map str names /\ NoDup ns /\ length cmds = length ns.
Proof.
  unfold _get_agent_info.
  destruct (Nat.eqb (length (map str names)) _) eqn:Edup; [|done]. simpl.
  apply no_repeat_iff in Edup.
  destruct (Nat.eqb_spec (length (map str names)) (length args)) as [Hlen|]; [|done].
  simpl. destruct (agent_args_loop args []) as [?|r] eqn:Er; [done|]. simpl.
  intros [= <- <-]. repeat split; try done.
  clear Edup. rewrite Hlen. clear Hlen.
  assert (forall acc r, agent_args_loop args acc = Ok r ->
            length r = (length acc + length args)%nat) as Hgen.
  { clear. induction args as [|x args IH]; intros acc r; simpl.
    - intros [= <-]. lia.
    - destruct (agent_arg x) as [?|c]; [done|]. simpl.
      intros H%IH. rewrite length_app in H. simpl in H. lia. }
  by apply (Hgen [] r).
Qed.

(** The agent session after a successful [add_agents]. *)
Lemma add_agents_session self names args ns cmds st :
  _get_agent_info names args = Ok (ns, cmds) ->
  (forall n, n ∈ ns -> n ∉ listWindowNames st (agent_session self)) ->
  interp sig (add_agents self names args) st
  = (Ok tt, final sig (add_agents self names args) st,
     Elist_window_names (agent_session self) :: agent_calls self ns cmds)
  /\ final sig (add_agents self names args) st !! agent_session self
     = match ns with
       | [] => st !! agent_session self
       | _ => Some (windows_of st (agent_session self) ++ agent_windows self ns cmds)%list
       end.
Proof.
  intros Hinfo Hfresh.
  destruct (get_agent_info_Ok _ _ _ _ Hinfo) as (_ & Hnd & Hlen).
  assert (E : interp sig (add_agents self names args) st
              = (Ok tt, final sig (add_agents self names args) st,
                 Elist_window_names (agent_session self) :: agent_calls self ns cmds)).
  { rewrite interp_add_agents_full. unfold Ok in Hinfo. rewrite Hinfo.
    cbv beta iota. by rewrite (proj1 (disjoint_names_true _ _) Hfresh). }
  split; [exact E|].
  rewrite lookup_final. unfold trace. rewrite E. simpl.
  by rewrite foldl_agent_calls.
Qed.

(** X4.  A request [add_agents] accepts: it lists the windows of the agent
    session, then creates one window per name, in order, running the agent
    command followed by a space and the command text of the name; the fleet
    afterwards is the fleet before followed by the names as strings, every
    new window runs its command, and the other sessions are untouched. *)
Theorem add_agents_appends_fleet self names args ns cmds st :
  _get_agent_info names args = Ok (ns, cmds) ->
  (forall n, n ∈ ns -> n ∉ listWindowNames st (agent_session self)) ->
  outcome sig (add_agents self names args) st = Ok tt
  /\ trace sig (add_agents self names args) st
     = Elist_window_names (agent_session self)
       :: map (fun '(n, c) => Erun (agent_session self) n (agent_cmd self ++ " " ++ c))
            (zip ns cmds)
  /\ listWindowNames (final sig (add_agents self names args) st) (agent_session self)
     = (listWindowNames st (agent_session self) ++ map str names)%list
  /\ (forall n c, (n, c) ∈ zip ns cmds ->
        new_window n (agent_cmd self ++ " " ++ c)
        ∈ windows_of (final sig (add_agents self names args) st) (agent_session self))
  /\ (forall s, s <> agent_session self ->
        final sig (add_agents self names args) st !! s = st !! s).
Proof.
  intros Hinfo Hfresh.
  destruct (get_agent_info_Ok _ _ _ _ Hinfo) as (Hns & Hnd & Hlen).
  destruct (add_agents_session self names args ns cmds st Hinfo Hfresh) as [E Hfin].
  split; [unfold outcome; by rewrite E|].
  split; [unfold trace; by rewrite E|].
  split; [|split].
  - unfold listWindowNames at 1, windows_of at 1. rewrite Hfin, <- Hns.
    destruct ns as [|n ns]; [by rewrite app_nil_r|].
    simpl default. rewrite map_app. by rewrite names_agent_windows.
  - intros n c Hin. unfold windows_of at 1. rewrite Hfin.
    destruct ns as [|n0 ns]; [by apply elem_of_nil in Hin|].
    simpl default. apply elem_of_app. right. unfold agent_windows.
    apply list_elem_of_fmap. by exists (n, c).
  - intros s Hs. apply final_spares. unfold trace. rewrite E. simpl.
    constructor; [done|]. by apply Forall_spares_agent_calls.
Qed.

Lemma remove_window_absent name ws :
  name ∉ map win_name ws -> remove_window name ws = ws.
Proof.
  unfold remove_window. induction ws as [|w ws IH]; [done|]. simpl.
  rewrite not_elem_of_cons. intros [Hne Hws].
  destruct (String.eqb_spec (win_name w) name) as [Heq|_]; [by destruct Hne|].
  simpl. by rewrite IH.
Qed.

(** Killing the windows just created gives back the session as it was. *)
Lemma foldl_kill_new self l ws :
  NoDup (map win_name l) ->
  (forall n, n ∈ map win_name l -> n ∉ map win_name ws) ->
  l <> [] ->
  foldl (step_session (agent_session self)) (Some (ws ++ l)%list)
    (map (fun n => Ekill (agent_session self) (Some n)) (map win_name l))
  = match ws with [] => None | _ => Some ws end.
Proof.
  revert ws. induction l as [|w l IH]; intros ws Hnd Hfresh Hne; [done|].
  simpl in Hnd. apply NoDup_cons in Hnd as [Hw Hnd].
  simpl map. simpl foldl. rewrite decide_True by done.
  assert (Hrm : remove_window (win_name w) (ws ++ w :: l) = (ws ++ l)%list).
  { unfold remove_window. rewrite List.filter_app. simpl.
    rewrite String.eqb_refl. simpl. f_equal.
    - apply remove_window_absent. apply Hfresh. left.
    - by apply remove_window_absent. }
  unfold kill_in.
  rewrite bool_decide_eq_true_2 by (rewrite map_app, elem_of_app; right; left).
  rewrite Hrm. destruct l as [|w' l'].
  - rewrite app_nil_r. simpl. by destruct ws.
  - assert (exists x r, (ws ++ w' :: l')%list = x :: r) as (x & r & Hx)
      by (destruct ws; simpl; eauto).
    rewrite Hx. rewrite <- Hx. apply IH; [done | | done].
    intros n Hn. apply Hfresh. by right.
Qed.

Lemma kill_calls_names self names :
  kill_calls self names
  = map (fun n => Ekill (agent_session self) (Some n)) (map str names).
Proof. unfold kill_calls. by rewrite map_map. Qed.

(** X5.  Round trip: on a well-formed backend, killing the agents a
    successful [add_agents] has just added gives back the backend as it was
    before they were added. *)
Theorem add_then_kill_agents_round_trip self names args st :
  wf st ->
  outcome sig (add_agents self names args) st = Ok tt ->
  final sig (kill_agents self names) (final sig (add_agents self names args) st) = st.
Proof.
  intros Hwf Hok.
  destruct (_get_agent_info names args) as [err|[ns cmds]] eqn:Hinfo.
  { unfold outcome in Hok. rewrite interp_add_agents_full, Hinfo in Hok. done. }
  assert (Hfresh : forall n, n ∈ ns -> n ∉ listWindowNames st (agent_session self)).
  { apply disjoint_names_true. unfold outcome in Hok.
    rewrite interp_add_agents_full, Hinfo in Hok.
    by destruct (disjoint_names _ ns). }
  destruct (get_agent_info_Ok _ _ _ _ Hinfo) as (Hns & Hnd & Hlen).
  destruct (add_agents_session self names args ns cmds st Hinfo Hfresh) as [E Hfin].
  set (st1 := final sig (add_agents self names args) st) in *.
  assert (Hother : forall s, s <> agent_session self -> st1 !! s = st !! s).
  { intros s Hs. apply final_spares. unfold trace. rewrite E. simpl.
    constructor; [done|]. by apply Forall_spares_agent_calls. }
  apply map_eq. intros s.
  destruct (present st1 (agent_session self)) eqn:Hp.
  - rewrite lookup_final. unfold trace. rewrite interp_kill_agents, Hp. simpl.
    destruct (decide (s = agent_session self)) as [->|Hs].
    + rewrite Hfin, kill_calls_names, <- Hns.
      destruct ns as [|n ns']; [done|].
      rewrite <- (names_agent_windows self (n :: ns') cmds) at 2 by done.
      rewrite foldl_kill_new.
      * unfold windows_of. destruct (st !! agent_session self) as [ws|] eqn:Hst; [|done].
        simpl. destruct ws; [|done]. by destruct (Hwf _ _ Hst).
      * by rewrite names_agent_windows.
      * rewrite names_agent_windows by done. apply Hfresh.
      * destruct cmds; done.
    + rewrite foldl_step_spares by (by apply Forall_spares_kill_calls).
      by apply Hother.
  - unfold final at 1. rewrite interp_kill_agents, Hp. simpl.
    destruct (decide (s = agent_session self)) as [->|Hs]; [|by apply Hother].
    apply present_false_iff in Hp. rewrite Hp in Hfin. rewrite Hp.
    destruct ns; congruence.
Qed.

End FleetGrowth.

(* ===================================================================== *)
(** ** The stages of launch *)
(* ===================================================================== *)

Section Launching.
Context (sig : list string -> option string) (json_dumps : Config -> string).

Lemma init_evaluator name cfg a l e self :
  __init__ name cfg a l e = Ok self ->
  match e with
  | None => evaluator_cmd self = None
  | Some s => exists c, _get_python_cmd s = Ok c /\ evaluator_cmd self = Some c
  end.
Proof.
  unfold __init__.
  destruct (_get_python_cmd a) as [?|ca]; [done|].
  destruct (_get_python_cmd l) as [?|cl]; [done|]. simpl.
  destruct e as [s|]; simpl.
  - destruct (_get_python_cmd s) as [?|cs]; [done|]. simpl.
    intros [= <-]. by exists cs.
  - by intros [= <-].
Qed.

(** X6.  [launch] raises only in its last stage, and only what
    [_get_agent_info] raises: when the agent session is absent and the request
    for agents is rejected.  It is not atomic: by then the infrastructure and
    the learner sessions are up, with the windows of the first two stages
    created, and only the agent session is missing. *)
Theorem launch_fails_only_on_agent_request name cfg a l e self names args st :
  __init__ name cfg a l e = Ok self ->
  (forall err,
     outcome sig (launch json_dumps self names args) st = Err err
     <-> st !! agent_session self = None /\ _get_agent_info names args = Err err)
  /\ ((exists err, outcome sig (launch json_dumps self names args) st = Err err) ->
      is_Some (final sig (launch json_dumps self names args) st !! infras_session self)
      /\ is_Some (final sig (launch json_dumps self names args) st !! learner_session self)
      /\ final sig (launch json_dumps self names args) st !! agent_session self = None
      /\ runs (trace sig (launch json_dumps self names args) st)
         = ((if present st (infras_session self) then []
             else infra_calls json_dumps self)
            ++ (if present st (learner_session self) then []
                else learner_calls self))%list).
Proof.
  intros Hinit. pose proof (init_distinct _ _ _ _ _ _ Hinit) as Hd.
  assert (Hiff : forall err,
     outcome sig (launch json_dumps self names args) st = Err err
     <-> st !! agent_session self = None /\ _get_agent_info names args = Err err).
  { intros err. rewrite outcome_launch by done.
    destruct (present st (agent_session self)) eqn:Hp.
    - apply present_iff in Hp as [ws Hws]. split; [done|]. intros [? _]. congruence.
    - apply present_false_iff in Hp.
      destruct (present_listWindowNames_None _ _ Hp) as [_ ->].
      destruct (_get_agent_info names args) as [e'|[ns cmds]].
      + split; [by intros [= ->] | by intros [_ [= ->]]].
      + rewrite disjoint_names_nil. split; [done | by intros [_ ?]]. }
  split; [exact Hiff|].
  intros [err [Ha Hinfo]%Hiff].
  split; [by apply launch_infras_up|]. split; [by apply launch_learner_up|].
  destruct (present_listWindowNames_None _ _ Ha) as [Hp Hw].
  split.
  - rewrite launch_agent_session by done. rewrite Hp. unfold add_agents_trace.
    unfold Err in Hinfo. by rewrite Hinfo.
  - rewrite trace_launch, runs_launch_trace by done. rewrite Hp.
    unfold Err in Hinfo. rewrite Hinfo. by rewrite app_nil_r.
Qed.

(** X7.  When the agent session exists, [launch] does not look at the agents
    it is asked for: it validates nothing, adds no agent, returns normally
    and leaves the agent session as it is, whatever the names and the
    arguments. *)
Theorem launch_skips_running_fleet name cfg a l e self names args names' args' st :
  __init__ name cfg a l e = Ok self ->
  is_Some (st !! agent_session self) ->
  outcome sig (launch json_dumps self names args) st = Ok tt
  /\ interp sig (launch json_dumps self names args) st
     = interp sig (launch json_dumps self names' args') st
  /\ final sig (launch json_dumps self names args) st !! agent_session self
     = st !! agent_session self
  /\ Forall (fun ev => run_session ev <> Some (agent_session self))
       (trace sig (launch json_dumps self names args) st).
Proof.
  intros Hinit Hpres%present_iff.
  pose proof (init_distinct _ _ _ _ _ _ Hinit) as Hd.
  pose proof Hd as (Hil & Hia & Hla).
  assert (Ho : forall ns ar, outcome sig (launch json_dumps self ns ar) st = Ok tt).
  { intros ns ar. rewrite outcome_launch by done. by rewrite Hpres. }
  assert (Ht : forall ns ar,
            trace sig (launch json_dumps self ns ar) st
            = launch_trace json_dumps self [] []
                (present st (infras_session self)) (present st (learner_session self))
                true []).
  { intros ns ar. rewrite trace_launch by done. by rewrite Hpres. }
  split; [apply Ho|]. split; [|split].
  - rewrite !interp_eta, !Ho, !Ht. f_equal. f_equal.
    apply map_eq. intros s. by rewrite !lookup_final, !Ht.
  - rewrite launch_agent_session by done. by rewrite Hpres.
  - rewrite Ht. apply Forall_impl with (P := spares (agent_session self));
      [|intros ev; apply spares_run_session].
    unfold launch_trace.
    repeat first
      [ apply Forall_app; split
      | apply Forall_spares_listing
      | apply Forall_spares_if
      | apply Forall_spares_infra; congruence
      | apply Forall_spares_learner; congruence
      | apply Forall_nil_2 ].
Qed.

(** X8.  The learner session [launch] brings up: a window ["learner"]
    running the learner command, followed by a window ["evaluator"] running
    the evaluator command exactly when the cluster was built with an
    evaluator script; and this whatever the agents asked for, also when the
    request for agents is rejected. *)
Theorem launch_learner_windows name cfg a l e self names args st :
  __init__ name cfg a l e = Ok self ->
  st !! learner_session self = None ->
  final sig (launch json_dumps self names args) st !! learner_session self
  = Some (new_window "learner" (learner_cmd self)
          :: match evaluator_cmd self with
             | Some c => [new_window "evaluator" c]
             | None => []
             end)
  /\ listWindowNames (final sig (launch json_dumps self names args) st)
       (learner_session self)
     = "learner" :: match e with Some _ => ["evaluator"] | None => [] end.
Proof.
  intros Hinit Habs. pose proof (init_distinct _ _ _ _ _ _ Hinit) as Hd.
  assert (Hfin : final sig (launch json_dumps self names args) st !! learner_session self
            = Some (new_window "learner" (learner_cmd self)
                    :: match evaluator_cmd self with
                       | Some c => [new_window "evaluator" c]
                       | None => []
                       end)).
  { rewrite lookup_final, trace_launch, foldl_launch_trace_learner by done.
    rewrite (proj2 (present_false_iff _ _) Habs), Habs. unfold learner_calls.
    destruct (evaluator_cmd self) as [c|]; simpl; by rewrite !decide_True. }
  split; [exact Hfin|].
  unfold listWindowNames, windows_of. rewrite Hfin.
  pose proof (init_evaluator _ _ _ _ _ _ Hinit) as He.
  destruct e as [s|].
  - destruct He as (c & _ & ->). done.
  - by rewrite He.
Qed.

(** X9.  A successful [launch] on a backend without agent session: the
    running agents afterwards are the names asked for, as strings and in
    order, each in a window running the agent command followed by its
    command text.  Asked for no agent, [launch] succeeds and leaves the agent
    session absent: [is_launched("agent")] is then false. *)
Theorem launch_starts_requested_agents name cfg a l e self names args ns cmds st :
  __init__ name cfg a l e = Ok self ->
  st !! agent_session self = None ->
  _get_agent_info names args = Ok (ns, cmds) ->
  outcome sig (launch json_dumps self names args) st = Ok tt
  /\ outcome sig (get_running_agents self)
       (final sig (launch json_dumps self names args) st) = Ok (map str names)
  /\ final sig (launch json_dumps self names args) st !! agent_session self
     = match ns with
       | [] => None
       | _ => Some (agent_windows self ns cmds)
       end
  /\ outcome sig (is_launched self "agent")
       (final sig (launch json_dumps self names args) st)
     = Ok (match names with [] => false | _ => true end).
Proof.
  intros Hinit Habs Hinfo. pose proof (init_distinct _ _ _ _ _ _ Hinit) as Hd.
  destruct (present_listWindowNames_None _ _ Habs) as [Hp Hw].
  destruct (get_agent_info_Ok _ _ _ _ Hinfo) as (Hns & Hnd & Hlen).
  unfold Ok in Hinfo.
  assert (Hfin : final sig (launch json_dumps self names args) st !! agent_session self
                 = match ns with
                   | [] => None
                   | _ => Some (agent_windows self ns cmds)
                   end).
  { rewrite launch_agent_session by done. rewrite Hp, Hw, Habs.
    unfold add_agents_trace. rewrite Hinfo, disjoint_names_nil. simpl.
    rewrite foldl_agent_calls; [by destruct ns | done | done |].
    intros n _. apply not_elem_of_nil. }
  split; [|split; [|split; [exact Hfin|]]].
  - rewrite outcome_launch by done. rewrite Hp, Hw, Hinfo.
    by rewrite disjoint_names_nil.
  - change (outcome sig (get_running_agents self)
              (final sig (launch json_dumps self names args) st))
      with (Ok (listWindowNames (final sig (launch json_dumps self names args) st)
                  (agent_session self))).
    f_equal. unfold listWindowNames, windows_of. rewrite Hfin, <- Hns.
    destruct ns as [|n ns']; [done|]. simpl default.
    by rewrite names_agent_windows.
  - rewrite (outcome_is_launched _ _ _ _ _ (session_group_agent self)).
    f_equal. apply eq_true_iff_eq. rewrite present_iff, Hfin.
    destruct names as [|x names], ns as [|n ns']; try done;
      split; try done; by intros [??].
Qed.

End Launching.

Section LaunchOrder.
Context (sig : list string -> option string) (json_dumps : Config -> string).

(** X17.  The order of a whole [launch], as the docstring of the class gives
    it.  On a backend with none of the three sessions and for a request
    that passes [_get_agent_info], the windows are created in this order:
    the three redis servers, loggerplex, tensorplex and tensorboard, then
    the learner and the evaluator if there is one, then the agents in the
    order of their names; each stage starts by listing the sessions, and
    the last one lists the agent windows before it creates any. *)
Theorem launch_creation_order name cfg a l e self names args ns cmds st :
  __init__ name cfg a l e = Ok self ->
  st !! infras_session self = None ->
  st !! learner_session self = None ->
  st !! agent_session self = None ->
  _get_agent_info names args = Ok (ns, cmds) ->
  runs (trace sig (launch json_dumps self names args) st)
  = (infra_calls json_dumps self ++ learner_calls self
     ++ agent_calls self ns cmds)%list
  /\ trace sig (launch json_dumps self names args) st
     = ([Elist_session_names] ++ infra_calls json_dumps self
        ++ [Elist_session_names] ++ learner_calls self
        ++ [Elist_session_names; Elist_window_names (agent_session self)]
        ++ agent_calls self ns cmds)%list.
Proof.
  intros Hinit Hi Hl Ha Hinfo.
  pose proof (init_distinct _ _ _ _ _ _ Hinit) as Hd.
  destruct (present_listWindowNames_None _ _ Hi) as [Hpi _].
  destruct (present_listWindowNames_None _ _ Hl) as [Hpl _].
  destruct (present_listWindowNames_None _ _ Ha) as [Hpa Hwa].
  unfold Ok in Hinfo. split.
  - rewrite trace_launch, runs_launch_trace by done.
    by rewrite Hpi, Hpl, Hpa, Hwa, Hinfo, disjoint_names_nil.
  - rewrite trace_launch by done. unfold launch_trace, add_agents_trace.
    by rewrite Hpi, Hpl, Hpa, Hwa, Hinfo, disjoint_names_nil.
Qed.

End LaunchOrder.

(* ===================================================================== *)
(** ** Tearing the cluster down *)
(* ===================================================================== *)

Section Teardown.
Context (sig : list string -> option string).

Lemma killall_others self st s :
  s ∉ [agent_session self; learner_session self; infras_session self] ->
  final sig (killall self) st !! s = st !! s.
Proof.
  rewrite !not_elem_of_cons. intros (Ha & Hl & Hi & _).
  apply final_spares.
  change (trace sig (killall self) st)
    with [Ekill (agent_session self) None; Ekill (learner_session self) None;
          Ekill (infras_session self) None].
  repeat constructor; simpl; congruence.
Qed.

Lemma elem_of_three (s a b c : string) : s ∈ [a; b; c] -> s = a \/ s = b \/ s = c.
Proof.
  rewrite !elem_of_cons. intros [?|[?|[?|H]]]; auto. by apply elem_of_nil in H.
Qed.

(** X10.  [killall] never raises, also on a backend where nothing runs: it
    kills the agent, the learner and the infrastructure session, in this
    order.  Afterwards none of the three exists, the other sessions of the
    backend are untouched, a second [killall] changes nothing, and
    [kill_agents] fails with 'agents not yet launched'. *)
Theorem killall_spec self names st :
  outcome sig (killall self) st = Ok tt
  /\ trace sig (killall self) st
     = [Ekill (agent_session self) None; Ekill (learner_session self) None;
        Ekill (infras_session self) None]
  /\ (forall s, s ∈ [agent_session self; learner_session self; infras_session self] ->
        final sig (killall self) st !! s = None)
  /\ (forall s, s ∉ [agent_session self; learner_session self; infras_session self] ->
        final sig (killall self) st !! s = st !! s)
  /\ final sig (killall self) (final sig (killall self) st) = final sig (killall self) st
  /\ outcome sig (kill_agents self names) (final sig (killall self) st)
     = Err (AssertionError "agents not yet launched").
Proof.
  split; [reflexivity|]. split; [reflexivity|].
  split; [|split; [|split]].
  - intros s Hs%elem_of_three. by apply killall_gone.
  - apply killall_others.
  - apply map_eq. intros s.
    destruct (decide (s ∈ [agent_session self; learner_session self;
                           infras_session self])) as [Hs|Hs].
    + apply elem_of_three in Hs. by rewrite !killall_gone.
    + by rewrite killall_others.
  - unfold outcome. rewrite interp_kill_agents.
    rewrite (proj2 (present_false_iff _ _)); [done|].
    apply killall_gone. auto.
Qed.

End Teardown.

(* ===================================================================== *)
(** ** What the queries call *)
(* ===================================================================== *)

Section Queries.
Context (sig : list string -> option string).

Lemma read_only_quiet {A} (p : prog A) st : read_only p -> quiet (trace sig p st).
Proof.
  unfold quiet, trace. revert st.
  induction p as [a|e|s w c k IH|s w k IH|k IH|s k IH|s w h k IH|s w h k IH];
    intros st Hro; simpl in *; try done; try constructor.
  - specialize (IH (listSessionNames st) st (Hro _)).
    destruct (interp sig (k _) _) as [[r st'] t]. by constructor.
  - specialize (IH (listWindowNames st s) st (Hro _)).
    destruct (interp sig (k _) _) as [[r st'] t]. by constructor.
  - specialize (IH (capturePane st s w h) st (Hro _)).
    destruct (interp sig (k _) _) as [[r st'] t]. by constructor.
  - specialize (IH (findErrorInPane sig st s w h) st (Hro _)).
    destruct (interp sig (k _) _) as [[r st'] t]. by constructor.
Qed.

Lemma read_only_is_launched self group : read_only (is_launched self group).
Proof.
  unfold is_launched. apply read_only_bind.
  - by destruct (_session_group self group).
  - intros sess. by intros r.
Qed.

Lemma read_only_get_running_agents self : read_only (get_running_agents self).
Proof. by intros r. Qed.

(** X11.  The four queries only read: [is_launched], [get_running_agents],
    [get_stdout] and [check_error] make no call that creates or kills a
    window or a session, whatever their arguments and also when they raise,
    and [is_launched] and [get_running_agents] leave the backend as it
    was. *)
Theorem queries_only_read self group tag window history st :
  quiet (trace sig (is_launched self tag) st)
  /\ quiet (trace sig (get_running_agents self) st)
  /\ quiet (trace sig (get_stdout self group window history) st)
  /\ quiet (trace sig (check_error self) st)
  /\ final sig (is_launched self tag) st = st
  /\ final sig (get_running_agents self) st = st.
Proof.
  split; [|split; [|split; [|split; [|split]]]].
  - apply read_only_quiet, read_only_is_launched.
  - apply read_only_quiet, read_only_get_running_agents.
  - apply read_only_quiet, read_only_get_stdout.
  - apply read_only_quiet, read_only_check_error.
  - apply read_only_final, read_only_is_launched.
  - apply read_only_final, read_only_get_running_agents.
Qed.

(** X12.  [get_stdout] rejects a call before it reaches the backend: a
    window without a group fails the assertion, also a window that is false
    in a condition (0 or the empty string); and so does a group tag other
    than ['agent'], ['learner'] and ['infras']. *)
Theorem get_stdout_rejects_before_any_call self group window history st :
  (group = None -> is_Some window ->
   interp sig (get_stdout self group window history) st
   = (Err (AssertionError ""), st, []))
  /\ (forall g, group = Some g -> g ∉ ["agent"; "learner"; "infras"] ->
      interp sig (get_stdout self group window history) st
      = (Err (AssertionError ""), st, [])).
Proof.
  split.
  - intros -> [w ->]. reflexivity.
  - intros g -> Hg. unfold get_stdout.
    by rewrite (session_group_outside self g Hg).
Qed.

(** X15.  The keys of [check_error] are keys of [get_stdout()], in the same
    order; [get_stdout()] has one entry per window of the three sessions;
    and no entry of [check_error] holds an empty text. *)
Theorem check_error_keys_among_stdout_keys name cfg a l e self history st :
  __init__ name cfg a l e = Ok self -> wf st ->
  exists derr dout,
    outcome sig (check_error self) st = Ok derr
    /\ outcome sig (get_stdout self None None history) st = Ok dout
    /\ odict_keys derr `sublist_of` odict_keys dout
    /\ length dout = length (all_windows self st)
    /\ (forall k v, (k, v) ∈ derr -> v <> "").
Proof.
  intros Hinit Hwf. eexists _, _.
  split; [by rewrite (check_error_entries _ _ _ _ _ _ _ _ Hinit Hwf)|].
  split; [by rewrite (get_stdout_entries _ _ _ _ _ _ _ _ _ _ _ Hinit Hwf)|].
  assert (Hkeys : odict_keys (entries (stdout_value st None (normalize_window None) history)
                                (all_windows self st))
                  = map slot_key (all_windows self st)).
  { unfold odict_keys. rewrite fst_entries.
    by rewrite filter_all by (apply Forall_forall; intros; by eexists). }
  split; [|split].
  - rewrite Hkeys. unfold odict_keys. rewrite fst_entries.
    apply fmap_sublist, sublist_filter.
  - rewrite <- (length_map slot_key (all_windows self st)), <- Hkeys.
    unfold odict_keys. by rewrite length_map.
  - intros k v (slot & _ & _ & Hv)%elem_of_entries.
    by apply error_value_Some in Hv as [_ ?].
Qed.

Lemma trace_for_fold {X S} (l : list X) (acc : S) (body : S -> X -> prog S)
    (g : S -> X -> S) (c : X -> list event) st :
  (forall a x, read_only (body a x)) ->
  (forall a x, outcome sig (body a x) st = Ok (g a x)) ->
  (forall a x, trace sig (body a x) st = c x) ->
  trace sig (for_fold l acc body) st = concat (map c l).
Proof.
  intros Hro Hout Htr. revert acc. induction l as [|x l IH]; intros acc; [done|].
  simpl. rewrite trace_bind, Hout. unfold Ok.
  rewrite read_only_final by apply Hro. by rewrite Htr, IH.
Qed.

Lemma trace_iterate {S} self (acc : S) body (g : S -> string * string -> S)
    (call : string -> string -> list event) st :
  (forall a s w, read_only (body a s w)) ->
  (forall a s w, outcome sig (body a s w) st = Ok (g a (s, w))) ->
  (forall a s w, trace sig (body a s w) st = call s w) ->
  trace sig (_iterate_all_windows self acc body) st = inspect_calls self st call.
Proof.
  intros Hro Hout Htr. unfold _iterate_all_windows, inspect_calls.
  apply (trace_for_fold _ _ _
           (fun a sess => foldl g a (map (pair sess) (listWindowNames st sess)))).
  - intros a sess. simpl. intros wins. apply read_only_for_fold. intros; apply Hro.
  - intros a sess. rewrite outcome_bind.
    change (outcome sig (list_window_names sess) st)
      with (inr (listWindowNames st sess) : result (list string)).
    change (final sig (list_window_names sess) st) with st. cbv beta iota.
    rewrite (outcome_for_fold _ _ _ _ (fun a0 w => g a0 (sess, w))) by (intros; auto).
    f_equal. generalize (listWindowNames st sess) as l. intros l. revert a.
    induction l as [|w l IH]; intros a; [done|]. simpl. apply IH.
  - intros a sess. rewrite trace_bind.
    change (outcome sig (list_window_names sess) st)
      with (inr (listWindowNames st sess) : result (list string)).
    change (final sig (list_window_names sess) st) with st.
    change (trace sig (list_window_names sess) st) with [Elist_window_names sess].
    cbv beta iota. simpl. f_equal.
    apply (trace_for_fold _ _ _ (fun a0 w => g a0 (sess, w))); intros; auto.
Qed.

(** X16.  The calls of the two inspections.  Both list the windows of the
    agent, the learner and the infrastructure session, in this order and
    also when a group is given.  [check_error] asks for an error in every
    window, always at a scroll-back depth of 100; [get_stdout] captures the
    panes it returns and no other, with the depth [history] it was given. *)
Theorem inspection_calls self group window history st :
  trace sig (check_error self) st
  = inspect_calls self st (fun s w => [Echeck_error s w 100])
  /\ (forall g,
        group_session self group window = Ok g ->
        trace sig (get_stdout self group window history) st
        = inspect_calls self st
            (fun s w => if selected g (normalize_window window) (s, w)
                        then [Eget_stdout s w history] else [])).
Proof.
  split.
  - unfold check_error.
    apply (trace_iterate _ _ _ (odict_step (error_value sig st))).
    + intros d s w r. destruct r as [msg|]; simpl; [|done].
      by destruct (negb (String.eqb msg "")).
    + intros d s w. unfold odict_step, error_value, error_text, outcome. simpl.
      destruct (findErrorInPane sig st s w 100) as [msg|]; [|done].
      by destruct (negb (String.eqb msg "")).
    + intros d s w. unfold trace. simpl.
      destruct (findErrorInPane sig st s w 100) as [msg|]; [|done].
      by destruct (negb (String.eqb msg "")).
  - intros g Hg. unfold get_stdout. rewrite trace_bind.
    fold (group_session self group window). rewrite Hg.
    change (outcome sig (lift (Ok g)) st) with (inr g : result (option scalar)).
    change (final sig (lift (Ok g : result (option scalar))) st) with st.
    change (trace sig (lift (Ok g : result (option scalar))) st) with (@nil event).
    cbv beta iota zeta. fold (normalize_window window). simpl app.
    apply (trace_iterate _ _ _
             (odict_step (stdout_value st g (normalize_window window) history))).
    + intros d s w.
      destruct (truthy_opt g && _)%bool; [done|].
      destruct (truthy_opt (normalize_window window) && _)%bool; [done|].
      by intros r.
    + intros d s w. unfold odict_step, stdout_value, selected. simpl.
      destruct (truthy_opt g && _)%bool; [done|].
      by destruct (truthy_opt (normalize_window window) && _)%bool.
    + intros d s w. unfold selected. simpl.
      destruct (truthy_opt g && _)%bool; [done|].
      by destruct (truthy_opt (normalize_window window) && _)%bool.
Qed.

End Queries.

(* ===================================================================== *)
(** ** A group and a window *)
(* ===================================================================== *)

Section Restricted.
Context (sig : list string -> option string).






End Restricted.

Section FalseWindow.
Context (sig : list string -> option string).

(** X14.  A window that is false in a condition (0 or the empty string) is
    no window to [get_stdout]: with a group, the call does what the call
    without window does. *)
Theorem get_stdout_false_window_is_no_window self g w history st :
  truthy w = false ->
  interp sig (get_stdout self (Some g) (Some w) history) st
  = interp sig (get_stdout self (Some g) None history) st.
Proof.
  intros Hw. unfold get_stdout.
  change (truthy_opt (Some w)) with (truthy w). rewrite Hw. cbv beta iota zeta.
  change (truthy_opt (Some w)) with (truthy w). rewrite Hw. reflexivity.
Qed.

End FalseWindow.

(* ===================================================================== *)
(** ** The properties on a concrete cluster *)
(* ===================================================================== *)

Import Example.


Lemma launched_agents : listWindowNames launched (agent_session exp1) = ["agent0"].
Proof. vm_compute. reflexivity. Qed.

Lemma wf_launched : wf launched.
Proof. apply wf_final, wf_empty. Qed.

Lemma wf_failing : wf failing.
Proof.
  intros s ws. unfold failing.
  rewrite lookup_insert_Some, lookup_insert_Some, lookup_empty.
  intros [[_ <-]|[_ [[_ <-]|[_ ?]]]]; [| |done];
    (split; [done | repeat constructor; by apply not_elem_of_nil]).
Qed.

Lemma launch_infra_calls_in_order_witness :
  (exists rest,
      trace no_error (launch dumps exp1 [PyStr "agent0"] [ArgNone]) ∅
      = (Elist_session_names
         :: [ Erun ("infras-" ++ "exp1") ("redis-" ++ replay_name cfg)
                ("redis-server --port " ++ pretty (replay_port cfg)
                 ++ " --protected-mode no");
              Erun ("infras-" ++ "exp1") ("redis-" ++ ps_name cfg)
                ("redis-server --port " ++ pretty (ps_port cfg)
                 ++ " --protected-mode no");
              Erun ("infras-" ++ "exp1") "redis-plex"
                ("redis-server --port " ++ pretty (tensorplex_port cfg)
                 ++ " --protected-mode no");
              Erun ("infras-" ++ "exp1") "loggerplex"
                ("python -u -m surreal.session.run_loggerplex_server "
                 ++ shlex_quote (dumps cfg));
              Erun ("infras-" ++ "exp1") "tensorplex"
                ("python -u -m surreal.session.run_tensorplex_server "
                 ++ shlex_quote (dumps cfg));
              Erun ("infras-" ++ "exp1") "tensorboard"
                ("tensorboard --logdir " ++ tensorplex_folder cfg
                 ++ " --port " ++ pretty (tensorplex_tb_port cfg)) ]
         ++ rest)%list
      /\ Forall (fun ev => run_session ev <> Some ("infras-" ++ "exp1")) rest)
  /\ Forall (fun ev => run_session ev <> Some ("infras-" ++ "exp1"))
       (trace no_error (launch dumps exp1 [PyStr "agent0"] [ArgNone]) launched).
Proof.
  pose proof (launch_infra_calls_in_order no_error dumps "exp1" cfg
                "surreal.main.agent" "learn.py" None exp1 [PyStr "agent0"] [ArgNone])
    as H.
  split.
  - apply (H ∅ eq_refl). apply lookup_empty.
  - apply (H launched eq_refl). vm_compute. eexists. reflexivity.
Defined.

Lemma launch_idempotent_witness :
  runs (trace no_error (launch dumps exp1 [PyStr "agent0"] [ArgNone])
          (final no_error (launch dumps exp1 [PyStr "agent0"] [ArgNone]) ∅)) = [].
Proof.
  exact (proj1 (launch_idempotent no_error dumps "exp1" cfg "surreal.main.agent"
                  "learn.py" None exp1 [PyStr "agent0"] [ArgNone] ∅ eq_refl)).
Defined.

Lemma add_agents_rejected_atomic_witness :
  interp no_error (add_agents exp1 [PyStr "a"; PyStr "a"] [ArgNone; ArgNone]) launched
  = (Err (AssertionError "must not duplicate agent names"), launched, [])
  /\ interp no_error (add_agents exp1 [PyStr "agent0"] [ArgStr "--id 7"]) launched
     = (Err (AssertionError "some agents already running, cannot launch duplicates."),
        launched, [Elist_window_names (agent_session exp1)]).
Proof.
  split.
  - apply (proj1 (add_agents_rejected_atomic no_error exp1
                    [PyStr "a"; PyStr "a"] [ArgNone; ArgNone] launched)).
    simpl. intros H. apply NoDup_cons in H as [H _]. apply H. left.
  - apply (proj1 (proj2 (add_agents_rejected_atomic no_error exp1
                           [PyStr "agent0"] [ArgStr "--id 7"] launched))
             ["agent0"] ["--id 7"] "agent0").
    + vm_compute. reflexivity.
    + left.
    + rewrite launched_agents. left.
Defined.

Lemma kill_agents_spec_witness :
  interp no_error (kill_agents exp1 [PyStr "agent0"]) ∅
  = (Err (AssertionError "agents not yet launched"), ∅, [Elist_session_names])
  /\ trace no_error (kill_agents exp1 [PyStr "ghost"]) launched
     = [Elist_session_names; Ekill (agent_session exp1) (Some "ghost")]
  /\ final no_error (kill_agents exp1 [PyStr "ghost"]) launched = launched.
Proof.
  split.
  - apply (proj1 (kill_agents_spec no_error exp1 [PyStr "agent0"] ∅)).
    apply lookup_empty.
  - destruct (proj2 (kill_agents_spec no_error exp1 [PyStr "ghost"] launched))
      as (_ & Ht & _ & _ & Hsame).
    { vm_compute. eexists. reflexivity. }
    split; [exact Ht|]. apply Hsame.
    intros n ->%list_elem_of_singleton. rewrite launched_agents.
    intros Hin%list_elem_of_singleton. discriminate.
Defined.

Lemma session_group_infra_tag_rejected :
  __init__ "exp1" cfg "surreal.main.agent" "learn.py" None = Ok exp1
  /\ _session_group exp1 "infra" = Err (AssertionError "")
  /\ _session_group exp1 "infras" = Ok "infras-exp1".
Proof. repeat split. Qed.

Lemma session_group_mapping_witness :
  _session_group exp1 "infras" = Ok ("infras-" ++ "exp1")
  /\ _session_group exp1 "learner" = Ok ("learner-" ++ "exp1")
  /\ _session_group exp1 "agent" = Ok ("agent-" ++ "exp1")
  /\ "infras-" ++ "exp1" <> "learner-" ++ "exp1"
  /\ "infras-" ++ "exp1" <> "agent-" ++ "exp1"
  /\ "learner-" ++ "exp1" <> "agent-" ++ "exp1"
  /\ (forall group, group ∉ ["agent"; "learner"; "infras"] ->
      _session_group exp1 group = Err (AssertionError "")).
Proof.
  exact (session_group_mapping "exp1" cfg "surreal.main.agent" "learn.py"
           None exp1 eq_refl).
Defined.

Lemma is_launched_infra_tag_raises :
  outcome no_error (is_launched exp1 "infra") launched = Err (AssertionError "")
  /\ outcome no_error (is_launched exp1 "infras") launched = Ok true.
Proof. split; vm_compute; reflexivity. Qed.

Lemma launch_add_kill_killall_witness :
  outcome no_error (is_launched exp1 "infras") launched = Ok true
  /\ outcome no_error (get_running_agents exp1) launched = Ok ["agent0"]
  /\ outcome no_error (get_running_agents exp1)
       (final no_error (add_agents exp1 [PyStr "agent1"] [ArgStr "--id 1"]) launched)
     = Ok ["agent0"; "agent1"]
  /\ outcome no_error (get_running_agents exp1)
       (final no_error (kill_agents exp1 [PyStr "agent0"])
          (final no_error (add_agents exp1 [PyStr "agent1"] [ArgStr "--id 1"]) launched))
     = Ok ["agent1"]
  /\ outcome no_error (is_launched exp1 "agent")
       (final no_error (killall exp1)
          (final no_error (kill_agents exp1 [PyStr "agent0"])
             (final no_error (add_agents exp1 [PyStr "agent1"] [ArgStr "--id 1"])
                launched)))
     = Ok false.
Proof.
  pose proof (launch_add_kill_killall no_error dumps "exp1" cfg "surreal.main.agent"
                "learn.py" None exp1 ∅ eq_refl
                (lookup_empty _) (lookup_empty _) (lookup_empty _)) as H.
  cbv zeta in H.
  destruct H as (_ & Hi & _ & _ & H1 & _ & H2 & _ & H3 & _ & _ & _ & H4).
  repeat split; assumption.
Defined.

(** C7, at a failing input.  Two agents are named by the integers 0 and 1.
    [get_stdout("agent", 1)] returns the pane of window ["1"] alone, but
    [get_stdout("agent", 0)], and likewise [get_stdout("agent", "")], returns
    the panes of both windows: a window that is false in [if window:] is
    neither converted by [str] nor used to filter, although the docstring
    keeps "all windows" for [None]. *)
Lemma get_stdout_window_zero_keeps_all :
  outcome no_error (get_running_agents exp1) numbered = Ok ["0"; "1"]
  /\ outcome no_error (get_stdout exp1 (Some "agent") (Some (PyInt 0)) 0) numbered
     = Ok [("agent-exp1:0", ""); ("agent-exp1:1", "")]
  /\ outcome no_error (get_stdout exp1 (Some "agent") (Some (PyInt 1)) 0) numbered
     = Ok [("agent-exp1:1", "")]
  /\ outcome no_error (get_stdout exp1 (Some "agent") (Some (PyStr "")) 0) numbered
     = Ok [("agent-exp1:0", ""); ("agent-exp1:1", "")].
Proof. repeat split; vm_compute; reflexivity. Qed.

Lemma check_error_takes_no_group :
  outcome traceback (check_error_with exp1 (Some "agent") None) failing
  = Err (TypeError "check_error() got an unexpected keyword argument 'group'")
  /\ outcome traceback (check_error exp1) failing
     = Ok [("learner-exp1:learner",
            join newline ["Traceback (most recent call last):";
                          "ValueError: bad shape"])]
  /\ check_error_claimed traceback exp1 (Some "agent") None failing = Ok [].
Proof. repeat split; vm_compute; reflexivity. Qed.

Lemma check_error_all_windows_witness :
  exists d,
    outcome traceback (check_error exp1) failing = Ok d
    /\ odict_keys d
       = map slot_key
           (filter (fun slot => is_Some (error_value traceback failing slot))
              (all_windows exp1 failing))
    /\ check_error_claimed traceback exp1 None None failing = Ok d.
Proof.
  destruct (check_error_all_windows traceback "exp1" cfg "surreal.main.agent"
              "learn.py" None exp1 failing eq_refl wf_failing)
    as (d & Hd & Hk & _ & Hc).
  exists d. repeat split; assumption.
Defined.

Lemma inspection_order_witness :
  exists d,
    outcome no_error (get_stdout exp1 None None 0) launched = Ok d
    /\ odict_keys d
       = (map (fun w => ("agent-" ++ "exp1" ++ ":" ++ w)%string)
            (listWindowNames launched ("agent-" ++ "exp1")%string)
          ++ map (fun w => ("learner-" ++ "exp1" ++ ":" ++ w)%string)
               (listWindowNames launched ("learner-" ++ "exp1")%string)
          ++ map (fun w => ("infras-" ++ "exp1" ++ ":" ++ w)%string)
               (listWindowNames launched ("infras-" ++ "exp1")%string))%list.
Proof.
  exact (proj1 (inspection_order no_error "exp1" cfg "surreal.main.agent" "learn.py"
                  None exp1 launched eq_refl wf_launched) 0).
Defined.

Lemma get_python_cmd_cases_witness :
  _get_python_cmd "python -u run.py --fast" = Ok "python -u run.py --fast"
  /\ _get_python_cmd "run.py" = Ok "python -u run.py"
  /\ _get_python_cmd "scripts/run.py" = Ok "python -u scripts/run.py"
  /\ (exists msg, _get_python_cmd "pkg/run" = Err (ValueError msg))
  /\ _get_python_cmd "foo.bar.baz" = Ok "python -u -m foo.bar.baz".
Proof.
  assert (Hns : forall s, startswith s "python" = false -> ~ starts_with_interpreter s).
  { intros s H Hs. apply startswith_iff in Hs. congruence. }
  assert (Hne : forall s, endswith s ".py" = false -> ~ ends_with_suffix s).
  { intros s H Hs. apply endswith_iff in Hs. congruence. }
  assert (Hnp : forall s, str_in "/" s = false -> ~ has_separator s).
  { intros s H Hs. apply str_in_iff in Hs. congruence. }
  split; [|split; [|split; [|split]]].
  - apply (proj1 (get_python_cmd_cases "python -u run.py --fast")).
    by exists " -u run.py --fast".
  - apply (proj1 (proj2 (get_python_cmd_cases "run.py"))).
    + by apply Hns.
    + by exists "run".
  - apply (proj1 (proj2 (get_python_cmd_cases "scripts/run.py"))).
    + by apply Hns.
    + by exists "scripts/run".
  - apply (proj1 (proj2 (proj2 (get_python_cmd_cases "pkg/run")))).
    + by apply Hns.
    + by apply Hne.
    + by exists "pkg", "run".
  - apply (proj2 (proj2 (proj2 (get_python_cmd_cases "foo.bar.baz")))).
    + by apply Hns.
    + by apply Hne.
    + by apply Hnp.
Defined.


Lemma get_python_cmd_idempotent_witness :
  starts_with_interpreter "python -u -m surreal.main.agent"
  /\ _get_python_cmd "python -u -m surreal.main.agent"
     = Ok "python -u -m surreal.main.agent".
Proof.
  exact (get_python_cmd_idempotent "surreal.main.agent"
           "python -u -m surreal.main.agent" eq_refl).
Defined.

Lemma init_rejects_ill_formed_scripts_witness :
  __init__ "exp1" cfg "surreal.main.agent" "pkg/learn" None
  = Err (script_error "pkg/learn").
Proof.
  apply (proj1 (init_rejects_ill_formed_scripts "exp1" cfg "surreal.main.agent"
                  "pkg/learn" None)).
  exists "pkg/learn". split; [reflexivity|]. right; left.
  split; [reflexivity|]. rewrite !ill_formed_iff. split; [discriminate | reflexivity].
Defined.

Lemma get_agent_info_cases_witness :
  _get_agent_info [PyInt 1; PyStr "1"] [ArgNone; ArgNone]
  = Err (AssertionError "must not duplicate agent names")
  /\ _get_agent_info [PyStr "a"; PyStr "b"] [ArgNone]
     = Err (AssertionError "")
  /\ _get_agent_info [PyStr "a"] [ArgTuple [PyStr "--id"; PyInt 1]]
     = Err (ValueError ("Must be a list of command line arg list "
                        ++ "OR a list of command strings.")).
Proof.
  split; [|split].
  - apply (proj1 (get_agent_info_cases [PyInt 1; PyStr "1"] [ArgNone; ArgNone])).
    assert (map str [PyInt 1; PyStr "1"] = ["1"; "1"]) as ->
      by (vm_compute; reflexivity).
    intros H. apply NoDup_cons in H as [H _]. apply H. left.
  - apply (proj1 (proj2 (get_agent_info_cases [PyStr "a"; PyStr "b"] [ArgNone]))).
    + repeat constructor; rewrite ?not_elem_of_cons;
        repeat split; try discriminate; apply not_elem_of_nil.
    + discriminate.
  - apply (proj1 (proj2 (proj2 (get_agent_info_cases [PyStr "a"]
                                  [ArgTuple [PyStr "--id"; PyInt 1]])))).
    + repeat constructor. apply not_elem_of_nil.
    + reflexivity.
    + eexists. left.
Defined.

Lemma add_agents_appends_fleet_witness :
  outcome no_error (add_agents exp1 [PyStr "agent1"] [ArgStr "--id 1"]) launched = Ok tt
  /\ listWindowNames
       (final no_error (add_agents exp1 [PyStr "agent1"] [ArgStr "--id 1"]) launched)
       (agent_session exp1)
     = (listWindowNames launched (agent_session exp1) ++ map str [PyStr "agent1"])%list.
Proof.
  destruct (add_agents_appends_fleet no_error exp1 [PyStr "agent1"] [ArgStr "--id 1"]
              ["agent1"] ["--id 1"] launched) as (H1 & _ & H3 & _).
  - vm_compute. reflexivity.
  - intros n ->%list_elem_of_singleton. rewrite launched_agents.
    intros H%list_elem_of_singleton. discriminate.
  - split; assumption.
Defined.

Lemma add_then_kill_agents_round_trip_witness :
  final no_error (kill_agents exp1 [PyStr "agent1"])
    (final no_error (add_agents exp1 [PyStr "agent1"] [ArgStr "--id 1"]) launched)
  = launched.
Proof.
  apply (add_then_kill_agents_round_trip no_error exp1 [PyStr "agent1"]
           [ArgStr "--id 1"] launched wf_launched).
  vm_compute. reflexivity.
Defined.

Lemma launch_fails_only_on_agent_request_witness :
  outcome no_error (launch dumps exp1 [PyStr "a"; PyStr "a"] [ArgNone; ArgNone]) ∅
  = Err (AssertionError "must not duplicate agent names")
  /\ is_Some (final no_error
                (launch dumps exp1 [PyStr "a"; PyStr "a"] [ArgNone; ArgNone]) ∅
              !! infras_session exp1)
  /\ final no_error (launch dumps exp1 [PyStr "a"; PyStr "a"] [ArgNone; ArgNone]) ∅
     !! agent_session exp1 = None.
Proof.
  destruct (launch_fails_only_on_agent_request no_error dumps "exp1" cfg
              "surreal.main.agent" "learn.py" None exp1
              [PyStr "a"; PyStr "a"] [ArgNone; ArgNone] ∅ eq_refl) as [Hiff Hrest].
  assert (Hf : outcome no_error
                 (launch dumps exp1 [PyStr "a"; PyStr "a"] [ArgNone; ArgNone]) ∅
               = Err (AssertionError "must not duplicate agent names")).
  { apply Hiff. split; [apply lookup_empty | vm_compute; reflexivity]. }
  split; [exact Hf|].
  destruct Hrest as (Hi & _ & Ha & _); [by eexists|]. by split.
Defined.

Lemma launch_skips_running_fleet_witness :
  outcome no_error (launch dumps exp1 [PyStr "a"; PyStr "a"] []) launched = Ok tt
  /\ final no_error (launch dumps exp1 [PyStr "a"; PyStr "a"] []) launched
     !! agent_session exp1 = launched !! agent_session exp1.
Proof.
  destruct (launch_skips_running_fleet no_error dumps "exp1" cfg
              "surreal.main.agent" "learn.py" None exp1
              [PyStr "a"; PyStr "a"] [] [] [] launched eq_refl)
    as (H1 & _ & H3 & _).
  - vm_compute. eexists. reflexivity.
  - by split.
Defined.

Lemma launch_learner_windows_witness :
  listWindowNames (final no_error (launch dumps with_evaluator [] []) ∅)
    (learner_session with_evaluator) = ["learner"; "evaluator"]
  /\ listWindowNames (final no_error (launch dumps exp1 [] []) ∅)
       (learner_session exp1) = ["learner"].
Proof.
  split.
  - apply (launch_learner_windows no_error dumps "exp1" cfg "surreal.main.agent"
             "learn.py" (Some "eval.py") with_evaluator [] [] ∅ eq_refl).
    apply lookup_empty.
  - apply (launch_learner_windows no_error dumps "exp1" cfg "surreal.main.agent"
             "learn.py" None exp1 [] [] ∅ eq_refl).
    apply lookup_empty.
Defined.

Lemma launch_starts_requested_agents_witness :
  outcome no_error (get_running_agents exp1)
    (final no_error (launch dumps exp1 [PyInt 0; PyInt 1] [ArgNone; ArgNone]) ∅)
  = Ok (map str [PyInt 0; PyInt 1])
  /\ outcome no_error (is_launched exp1 "agent")
       (final no_error (launch dumps exp1 [] []) ∅)
     = Ok false.
Proof.
  split.
  - apply (launch_starts_requested_agents no_error dumps "exp1" cfg
             "surreal.main.agent" "learn.py" None exp1
             [PyInt 0; PyInt 1] [ArgNone; ArgNone] ["0"; "1"] [""; ""] ∅ eq_refl).
    + apply lookup_empty.
    + vm_compute. reflexivity.
  - apply (launch_starts_requested_agents no_error dumps "exp1" cfg
             "surreal.main.agent" "learn.py" None exp1 [] [] [] [] ∅ eq_refl).
    + apply lookup_empty.
    + vm_compute. reflexivity.
Defined.

Lemma killall_spec_witness :
  final no_error (killall exp1) launched !! "agent-exp1" = None
  /\ final no_error (killall exp1) launched !! "other" = launched !! "other".
Proof.
  destruct (killall_spec no_error exp1 [] launched) as (_ & _ & Hgone & Hkeep & _).
  split.
  - apply Hgone. left.
  - apply Hkeep. rewrite !not_elem_of_cons.
    repeat split; try discriminate. apply not_elem_of_nil.
Defined.

Lemma get_stdout_rejects_before_any_call_witness :
  interp no_error (get_stdout exp1 (Some "tensorplex") None 0) launched
  = (Err (AssertionError ""), launched, [])
  /\ interp no_error (get_stdout exp1 None (Some (PyInt 0)) 0) launched
     = (Err (AssertionError ""), launched, []).
Proof.
  split.
  - apply (proj2 (get_stdout_rejects_before_any_call no_error exp1
                    (Some "tensorplex") None 0 launched) "tensorplex" eq_refl).
    rewrite !not_elem_of_cons. repeat split; try discriminate. apply not_elem_of_nil.
  - apply (proj1 (get_stdout_rejects_before_any_call no_error exp1
                    None (Some (PyInt 0)) 0 launched) eq_refl).
    by eexists.
Defined.


Lemma get_stdout_false_window_is_no_window_witness :
  interp no_error (get_stdout exp1 (Some "agent") (Some (PyInt 0)) 0) numbered
  = interp no_error (get_stdout exp1 (Some "agent") None 0) numbered.
Proof.
  exact (get_stdout_false_window_is_no_window no_error exp1 "agent" (PyInt 0) 0
           numbered eq_refl).
Defined.

Lemma check_error_keys_among_stdout_keys_witness :
  exists derr dout,
    outcome traceback (check_error exp1) failing = Ok derr
    /\ outcome traceback (get_stdout exp1 None None 0) failing = Ok dout
    /\ odict_keys derr `sublist_of` odict_keys dout
    /\ length dout = length (all_windows exp1 failing)
    /\ (forall k v, (k, v) ∈ derr -> v <> "").
Proof.
  exact (check_error_keys_among_stdout_keys traceback "exp1" cfg "surreal.main.agent"
           "learn.py" None exp1 0 failing eq_refl wf_failing).
Defined.

Lemma inspection_calls_witness :
  trace traceback (get_stdout exp1 (Some "learner") None 5) failing
  = inspect_calls exp1 failing
      (fun s w => if selected (Some (PyStr "learner-exp1")) (normalize_window None) (s, w)
                  then [Eget_stdout s w 5] else []).
Proof.
  exact (proj2 (inspection_calls traceback exp1 (Some "learner") None 5 failing)
           (Some (PyStr "learner-exp1")) eq_refl).
Defined.

Lemma launch_creation_order_witness :
  runs (trace no_error
          (launch dumps exp1 [PyStr "agent0"] [ArgList [PyStr "--id"; PyInt 0]]) ∅)
  = (infra_calls dumps exp1 ++ learner_calls exp1
     ++ agent_calls exp1 ["agent0"] ["--id 0"])%list.
Proof.
  apply (launch_creation_order no_error dumps "exp1" cfg "surreal.main.agent"
           "learn.py" None exp1 [PyStr "agent0"] [ArgList [PyStr "--id"; PyInt 0]]
           ["agent0"] ["--id 0"] ∅ eq_refl);
    try apply lookup_empty.
  vm_compute. reflexivity.
Defined.
